(** * ClaimGuard UI: the causal-diagram layout and the trust presentation

    A shallow embedding of [app.component.ts] (the [AppComponent] class) and
    of the payload types of [causal-analyzer.service.ts], with the properties
    of the layout getters, the trust getters, the ladder getters and of
    [runAnalysis].

    Conventions.
    - A JavaScript [number] is an IEEE 754 binary64 value: [spec_float] with
      the operations of the standard library at precision 53.  Pixel
      coordinates and array indices, which the code only ever combines as
      small integers, are in [Z].
    - A JavaScript string is a [string] holding its UTF-8 bytes.
    - A value that the code tests with [?.], [||], [??] or [!] before use is
      an [option]. *)

From Stdlib Require Import ZArith QArith Qabs Lia List Bool Ascii String.
From Stdlib Require Import Floats.SpecFloat.
Import ListNotations.

#[local] Open Scope string_scope.
#[local] Open Scope list_scope.
#[local] Open Scope Z_scope.

(** A JavaScript [number]. *)
Definition number : Type := spec_float.

(* ================================================================== *)
(** * The payload types of the analysis service                        *)
(* ================================================================== *)

Module Service.

(** [SourcePayload] *)
Record SourcePayload : Type := {
  Source_Title : option string;
  Source_Url : option string;
  Source_Type : option string;
  Source_SampleSize : option number;
  Source_Year : option number;
  Source_PeerReviewed : option bool
}.

(** [AnalyzeRequestPayload] *)
Record AnalyzeRequestPayload : Type := {
  Request_TextClaim : string;
  Request_Domain : string;
  Request_Sources : list SourcePayload
}.

(** The type of [AnalyzeResponsePayload.Template].  [Z] and [Edges] are
    tested before use ([tpl.Z || []], [!tpl.Edges]). *)
Record CausalTemplate : Type := {
  Template_X : string;
  Template_Y : string;
  Template_Z : option (list string);
  Template_Edges : option (list (string * string));
  Template_Note : string
}.

Record Estimand : Type := {
  Estimand_Identifiable : bool;
  Estimand_Expression : string;
  Estimand_Reason : string
}.

(** The element type of [SourceTrust] and the type of [AggregatedTrust]. *)
Record Trust : Type := {
  Trust_m : number;
  Trust_c : number;
  Trust_Source : option string;
  Trust_Details : option string
}.

(** [AnalyzeResponsePayload].  [Rung] is the string the backend sent;
    [Template] is tested before use ([this.result?.Template]). *)
Record AnalyzeResponsePayload : Type := {
  Response_TextClaim : string;
  Response_Domain : string;
  Response_Rung : string;
  Response_Template : option CausalTemplate;
  Response_Estimand : Estimand;
  Response_SourceTrust : list Trust;
  Response_AggregatedTrust : Trust;
  Response_Explanation : string
}.

End Service.
Export Service.

(* ================================================================== *)
(** * The platform: strings                                            *)
(* ================================================================== *)

Module JsString.

Definition bytes (codes : list nat) : string :=
  string_of_list_ascii (map ascii_of_nat codes).

(** The code points of ECMAScript's WhiteSpace and LineTerminator
    productions, each as its UTF-8 encoding: TAB, LF, VT, FF, CR, SP,
    U+00A0, U+1680, U+2000 to U+200A, U+2028, U+2029, U+202F, U+205F,
    U+3000 and U+FEFF. *)
Definition white_space : list string :=
  map bytes
    [ [9]; [10]; [11]; [12]; [13]; [32]; [194; 160]; [225; 154; 128];
      [226; 128; 128]; [226; 128; 129]; [226; 128; 130]; [226; 128; 131];
      [226; 128; 132]; [226; 128; 133]; [226; 128; 134]; [226; 128; 135];
      [226; 128; 136]; [226; 128; 137]; [226; 128; 138]; [226; 128; 168];
      [226; 128; 169]; [226; 128; 175]; [226; 129; 159]; [227; 128; 128];
      [239; 187; 191] ]%nat.

(** [s] without its prefix [p], when it has it. *)
Fixpoint strip_prefix (p s : string) : option string :=
  match p, s with
  | EmptyString, _ => Some s
  | String a p', String b s' =>
    if Ascii.eqb a b then strip_prefix p' s' else None
  | String _ _, EmptyString => None
  end.

Fixpoint strip_any (ps : list string) (s : string) : option string :=
  match ps with
  | [] => None
  | p :: ps' =>
    match strip_prefix p s with
    | Some rest => Some rest
    | None => strip_any ps' s
    end
  end.

Fixpoint strip_all (ps : list string) (fuel : nat) (s : string) : string :=
  match fuel with
  | O => s
  | S fuel' =>
    match strip_any ps s with
    | Some rest => strip_all ps fuel' rest
    | None => s
    end
  end.

Fixpoint reverse (s : string) : string :=
  match s with
  | EmptyString => EmptyString
  | String a s' => (reverse s' ++ String a EmptyString)%string
  end.

(** [String.prototype.trimStart] *)
Definition trimStart (s : string) : string :=
  strip_all white_space (String.length s) s.

(** [String.prototype.trimEnd] *)
Definition trimEnd (s : string) : string :=
  reverse (strip_all (map reverse white_space) (String.length s) (reverse s)).

(** [String.prototype.trim] *)
Definition trim (s : string) : string := trimEnd (trimStart s).

(** [String.prototype.includes] *)
Fixpoint includes (s search : string) : bool :=
  String.prefix search s ||
  match s with
  | EmptyString => false
  | String _ rest => includes rest search
  end.

(** [!s] on a string: only the empty string is falsy. *)
Definition falsy (s : string) : bool :=
  match s with EmptyString => true | String _ _ => false end.

(** [v || d] on an optional string: [null], [undefined] and the empty
    string give [d]. *)
Definition or_else (v : option string) (d : string) : string :=
  match v with
  | Some s => if falsy s then d else s
  | None => d
  end.

(** [v ?? d]: only [null] and [undefined] give [d]. *)
Definition nullish {A : Type} (v : option A) (d : A) : A :=
  match v with
  | Some s => s
  | None => d
  end.

(** [s || null] *)
Definition or_null (s : string) : option string :=
  if falsy s then None else Some s.

(** The character of a decimal digit. *)
Definition digit (d : Z) : string :=
  String (ascii_of_N (48 + Z.to_N d)) EmptyString.

Fixpoint decimal_fuel (fuel : nat) (n : Z) : string :=
  match fuel with
  | O => EmptyString
  | S fuel' =>
    if n <? 10 then digit n
    else (decimal_fuel fuel' (n / 10) ++ digit (n mod 10))%string
  end.

(** The decimal representation of a natural number, without leading
    zeros ("0" for zero). *)
Definition decimal (n : Z) : string :=
  decimal_fuel (S (Z.to_nat (Z.log2 n))) n.

Fixpoint zeros (k : nat) : string :=
  match k with
  | O => EmptyString
  | S k' => String "0" (zeros k')
  end.

End JsString.

(* ================================================================== *)
(** * The platform: numbers                                            *)
(* ================================================================== *)

Module JsNumber.
Import JsString.

Definition prec : Z := 53.
Definition emax : Z := 1024.

(** A Number value is a [spec_float] that is valid at binary64. *)
Definition valid (x : number) : bool := valid_binary prec emax x.

(** [x * y] *)
Definition mul : number -> number -> number := SFmul prec emax.

(** [x / y] *)
Definition div : number -> number -> number := SFdiv prec emax.

(** [x === y] on numbers: [NaN] equals nothing and [-0] equals [+0]. *)
Definition strict_eq : number -> number -> bool := SFeqb.

(** The Number of an integer literal (exact below [2^53]). *)
Definition of_Z (n : Z) : number := binary_normalize prec emax n 0 false.

(** The Number of the decimal literal [n / 10^k] (correctly rounded for
    [n < 2^53] and [k <= 22], where both operands are exact). *)
Definition of_decimal (n : Z) (k : Z) : number :=
  div (of_Z n) (of_Z (10 ^ k)).

Definition NaN : number := S754_nan.
Definition Infinity : number := S754_infinity false.

(** A finite nonzero Number [(-1)^s * m * 2^e] has the magnitude
    [numerator m e / denominator e]. *)
Definition numerator (m : positive) (e : Z) : Z := Zpos m * 2 ^ Z.max 0 e.
Definition denominator (e : Z) : Z := 2 ^ Z.max 0 (- e).

(** The mathematical value of a finite Number. *)
Definition value (x : number) : option Q :=
  match x with
  | S754_zero _ => Some 0%Q
  | S754_finite s m e =>
    Some (Qmake (cond_Zopp s (numerator m e)) (Z.to_pos (denominator e)))
  | S754_infinity _ | S754_nan => None
  end.

(** The integer that an integral finite Number denotes. *)
Definition integer_value (x : number) : option Z :=
  match x with
  | S754_zero _ => Some 0
  | S754_finite s m e =>
    if numerator m e mod denominator e =? 0
    then Some (cond_Zopp s (numerator m e / denominator e))
    else None
  | S754_infinity _ | S754_nan => None
  end.

(** The integer closest to [a / b], the larger one in a tie ([0 < b]). *)
Definition round_half_up (a b : Z) : Z := (2 * a + b) / (2 * b).

(** [Math.round]: a value that is not finite or is integral already is
    returned as it is; a value in [(0, 0.5)] gives [+0] and one in
    [[-0.5, 0)] gives [-0]; another one gives the closest integral Number,
    the one closer to +Infinity in a tie. *)
Definition Math_round (x : number) : number :=
  match x with
  | S754_finite s m e =>
    if numerator m e mod denominator e =? 0 then x
    else
      let n := round_half_up (cond_Zopp s (numerator m e)) (denominator e) in
      if n =? 0 then S754_zero s else of_Z n
  | _ => x
  end.

(** *** Number::toString, for the arguments [toFixed] passes to it: a value
    that is not finite, or a finite one of magnitude [10^21] or more (an
    integer, printed in exponential notation). *)

Definition decimal_length (X : Z) : Z := Z.of_nat (String.length (decimal X)).

(** A [k]-digit [s] with [s * 10^(n-k)] converting to [x], the one closest
    to [X] (the integer [x] denotes). *)
Definition shortest_at (x : number) (X : Z) (k n : Z) : option Z :=
  let p := 10 ^ (n - k) in
  let ok s :=
    (10 ^ (k - 1) <=? s) && (s <? 10 ^ k) && strict_eq (of_Z (s * p)) x in
  let lo := X / p in
  let hi := lo + 1 in
  match ok lo, ok hi with
  | true, true => Some (if X - lo * p <=? hi * p - X then lo else hi)
  | true, false => Some lo
  | false, true => Some hi
  | false, false => None
  end.

(** The [(n, k, s)] of Number::toString: the fewest digits [k] first. *)
Fixpoint shortest_from (fuel : nat) (x : number) (X : Z) (k : Z)
    : Z * Z * Z :=
  let nd := decimal_length X in
  match shortest_at x X k nd, shortest_at x X k (nd + 1) with
  | Some s, _ => (nd, k, s)
  | None, Some s => (nd + 1, k, s)
  | None, None =>
    match fuel with
    | O => (nd, nd, X)
    | S fuel' => shortest_from fuel' x X (k + 1)
    end
  end.

Definition exponential (n k s : Z) : string :=
  let e := n - 1 in
  let sd := decimal s in
  let mantissa :=
    match sd with
    | String d1 (String _ _ as rest) => String d1 ("." ++ rest)
    | _ => sd
    end in
  (mantissa ++ "e" ++ (if Z.ltb e 0 then "-" else "+")
     ++ decimal (Z.abs e))%string.

Definition Number_toString (x : number) : string :=
  match x with
  | S754_nan => "NaN"
  | S754_zero _ => "0"
  | S754_infinity s => if s then "-Infinity" else "Infinity"
  | S754_finite s m e =>
    let X := numerator m e in
    let '(n, k, sg) := shortest_from 17 (S754_finite false m e) X 1 in
    ((if s then "-" else "") ++ exponential n k sg)%string
  end.

(** *** [Number.prototype.toFixed(fractionDigits)], for [fractionDigits]
    in its legal range 0..100 (the code passes 2). *)

(** Steps 10.a to 10.c: the digits of [n] with the point before the last
    [f] of them, zero-padded on the left up to [f + 1] digits. *)
Definition fixed_digits (n : Z) (f : nat) : string :=
  let m := if n =? 0 then "0" else decimal n in
  match f with
  | O => m
  | S _ =>
    let k := String.length m in
    let m := if (k <=? f)%nat then (zeros (f + 1 - k) ++ m)%string else m in
    let k := String.length m in
    let a := substring 0 (k - f) m in
    let b := substring (k - f) f m in
    (a ++ "." ++ b)%string
  end.

Definition toFixed (x : number) (fractionDigits : nat) : string :=
  let f := fractionDigits in
  match x with
  | S754_nan | S754_infinity _ => Number_toString x
  | S754_zero _ => fixed_digits 0 f
  | S754_finite sx mx ex =>
    let s := if sx then "-" else "" in
    let a := numerator mx ex in
    let b := denominator ex in
    if 10 ^ 21 * b <=? a
    then (s ++ Number_toString (S754_finite false mx ex))%string
    else
      let n := round_half_up (a * 10 ^ Z.of_nat f) b in
      (s ++ fixed_digits n f)%string
  end.

End JsNumber.

(* ================================================================== *)
(** * The component                                                    *)
(* ================================================================== *)

(** [kind: 'X' | 'Y' | 'Z'] *)
Inductive NodeKind : Type := KindX | KindY | KindZ.

(** [interface DagNode] *)
Record DagNode : Type := {
  node_id : string;
  node_label : string;
  node_kind : NodeKind;
  node_x : Z;
  node_y : Z
}.

(** [interface DagEdge] *)
Record DagEdge : Type := {
  edge_from : string;
  edge_to : string
}.

(** The fields of [class AppComponent]. *)
Record AppComponent : Type := {
  title : string;
  claim : string;
  domain : string;
  sourceType : string;
  sourceUrl : string;
  sourceTitle : string;
  sourceYear : option number;
  sampleSize : option number;
  loading : bool;
  statusText : string;
  backendStatus : string;
  result : option AnalyzeResponsePayload
}.

(** The component as its field initialisers leave it. *)
Definition initial : AppComponent := {|
  title := "CausalClaim Guard";
  claim := "";
  domain := "auto";
  sourceType := "";
  sourceUrl := "";
  sourceTitle := "";
  sourceYear := None;
  sampleSize := None;
  loading := false;
  statusText := "Idle · waiting for a claim";
  backendStatus := "connected";
  result := None
|}.

(** ** DAG helpers *)

(** [nodes.push(n)] *)
Definition push {A : Type} (arr : list A) (a : A) : list A := arr ++ [a].

(** [arr.forEach((a, index) => body)], the body threading the state [S]. *)
Fixpoint forEach_from {A S : Type} (body : S -> A -> nat -> S)
    (arr : list A) (index : nat) (s : S) : S :=
  match arr with
  | [] => s
  | a :: rest => forEach_from body rest (Datatypes.S index) (body s a index)
  end.

Definition forEach {A S : Type} (body : S -> A -> nat -> S)
    (arr : list A) (s : S) : S :=
  forEach_from body arr 0%nat s.

Definition topY : Z := 30.
Definition bottomY : Z := 150.

(** The body of the [zs.forEach] callback in [dagNodes]. *)
Definition push_covariate (nodes : list DagNode) (z : string) (index : nat)
    : list DagNode :=
  let isTop := Z.of_nat index mod 2 =? 0 in
  let rowIndex := Z.of_nat index / 2 in
  let xBase := 80 + rowIndex * 80 in
  push nodes {| node_id := z;
                node_label := ("Z: " ++ z)%string;
                node_kind := KindZ;
                node_x := xBase;
                node_y := if isTop then topY else bottomY |}.

(** [get dagNodes()] *)
Definition dagNodes (this : AppComponent) : list DagNode :=
  match result this with
  | None => []
  | Some res =>
    match Response_Template res with
    | None => []
    | Some tpl =>
      let nodes := [] in
      let nodes := push nodes {| node_id := Template_X tpl;
                                 node_label := ("X: " ++ Template_X tpl)%string;
                                 node_kind := KindX;
                                 node_x := 80;
                                 node_y := 90 |} in
      let nodes := push nodes {| node_id := Template_Y tpl;
                                 node_label := ("Y: " ++ Template_Y tpl)%string;
                                 node_kind := KindY;
                                 node_x := 260;
                                 node_y := 90 |} in
      let zs := match Template_Z tpl with Some zs => zs | None => [] end in
      forEach push_covariate zs nodes
    end
  end.

(** [get dagEdges()] *)
Definition dagEdges (this : AppComponent) : list DagEdge :=
  match result this with
  | None => []
  | Some res =>
    match Response_Template res with
    | None => []
    | Some tpl =>
      match Template_Edges tpl with
      | None => []
      | Some edges =>
        map (fun '(from, to) => {| edge_from := from; edge_to := to |}) edges
      end
    end
  end.

(** [getNodeFor(name)] *)
Definition getNodeFor (this : AppComponent) (name : string) : option DagNode :=
  find (fun n => String.eqb (node_id n) name) (dagNodes this).

(** ** Ladder getters *)

(** [get rungLabel()] *)
Definition rungLabel (this : AppComponent) : string :=
  match result this with
  | None => "L1 · Association"
  | Some res =>
    let rung := Response_Rung res in
    if String.eqb rung "L2" then "L2 · Intervention"
    else if String.eqb rung "L3" then "L3 · Counterfactual"
    else "L1 · Association"
  end.

(** [get rungClass()] *)
Definition rungClass (this : AppComponent) : string :=
  match result this with
  | None => "badge-rung-l1"
  | Some res =>
    if String.eqb (Response_Rung res) "L2" then "badge-rung-l2"
    else if String.eqb (Response_Rung res) "L3" then "badge-rung-l3"
    else "badge-rung-l1"
  end.

(** ** Trust getters *)

Import JsString JsNumber.

(** [get trustPercent()] *)
Definition trustPercent (this : AppComponent) : number :=
  match result this with
  | None => S754_zero false
  | Some res => Math_round (mul (Trust_m (Response_AggregatedTrust res)) (of_Z 100))
  end.

(** [get confPercent()] *)
Definition confPercent (this : AppComponent) : number :=
  match result this with
  | None => S754_zero false
  | Some res => Math_round (mul (Trust_c (Response_AggregatedTrust res)) (of_Z 100))
  end.

(** [get trustHint()] *)
Definition trustHint (this : AppComponent) : string :=
  match result this with
  | None =>
    "No sources provided · T(m, c) defaults to (0, 0) = complete uncertainty."
  | Some res =>
    let agg := Response_AggregatedTrust res in
    if strict_eq (Trust_m agg) (S754_zero false)
       && strict_eq (Trust_c agg) (S754_zero false)
       && includes (or_else (Trust_Details agg) "") "no sources"
    then
      "No sources provided · T(m, c) = (0, 0) → complete uncertainty about evidence."
    else
      ("Aggregated trust T(m, c) = (" ++ toFixed (Trust_m agg) 2 ++ ", "
         ++ toFixed (Trust_c agg) 2 ++ ") · "
         ++ nullish (Trust_Details agg) "")%string
  end.

(** ** [runAnalysis] and the observer of its request *)

Definition set_statusText (text : string) (this : AppComponent) : AppComponent :=
  {| title := title this; claim := claim this; domain := domain this;
     sourceType := sourceType this; sourceUrl := sourceUrl this;
     sourceTitle := sourceTitle this; sourceYear := sourceYear this;
     sampleSize := sampleSize this; loading := loading this;
     statusText := text;
     backendStatus := backendStatus this; result := result this |}.

Definition set_loading (b : bool) (this : AppComponent) : AppComponent :=
  {| title := title this; claim := claim this; domain := domain this;
     sourceType := sourceType this; sourceUrl := sourceUrl this;
     sourceTitle := sourceTitle this; sourceYear := sourceYear this;
     sampleSize := sampleSize this; loading := b;
     statusText := statusText this;
     backendStatus := backendStatus this; result := result this |}.

Definition set_backendStatus (status : string) (this : AppComponent)
    : AppComponent :=
  {| title := title this; claim := claim this; domain := domain this;
     sourceType := sourceType this; sourceUrl := sourceUrl this;
     sourceTitle := sourceTitle this; sourceYear := sourceYear this;
     sampleSize := sampleSize this; loading := loading this;
     statusText := statusText this;
     backendStatus := status; result := result this |}.

Definition set_result (res : option AnalyzeResponsePayload)
    (this : AppComponent) : AppComponent :=
  {| title := title this; claim := claim this; domain := domain this;
     sourceType := sourceType this; sourceUrl := sourceUrl this;
     sourceTitle := sourceTitle this; sourceYear := sourceYear this;
     sampleSize := sampleSize this; loading := loading this;
     statusText := statusText this;
     backendStatus := backendStatus this; result := res |}.

(** The body of [runAnalysis()] up to and including the call of
    [this.analyzer.analyze(payload).subscribe(...)]: the component it leaves
    and the request it hands to the analysis service, if any. *)
Definition runAnalysis (this : AppComponent)
    : AppComponent * option AnalyzeRequestPayload :=
  let trimmed := trim (claim this) in
  if falsy trimmed then
    (set_statusText "Please enter a claim before running analysis." this, None)
  else
    let sources :=
      if negb (falsy (trim (sourceUrl this))) then
        push [] {| Source_Title := or_null (trim (sourceTitle this));
                   Source_Url := Some (trim (sourceUrl this));
                   Source_Type := or_null (sourceType this);
                   Source_SampleSize := sampleSize this;
                   Source_Year := sourceYear this;
                   Source_PeerReviewed :=
                     Some (String.eqb (sourceType this) "peer-reviewed") |}
      else [] in
    let domainPayload :=
      if String.eqb (domain this) "auto" then "auto" else domain this in
    let payload := {| Request_TextClaim := trimmed;
                      Request_Domain := domainPayload;
                      Request_Sources := sources |} in
    let this := set_loading true this in
    let this := set_statusText "Analyzing claim…" this in
    (this, Some payload).

(** The [next] callback of the subscription. *)
Definition on_next (res : AnalyzeResponsePayload) (this : AppComponent)
    : AppComponent :=
  let this := set_result (Some res) this in
  let this := set_statusText "Analysis complete." this in
  let this := set_backendStatus "connected" this in
  set_loading false this.

(** The [error] callback of the subscription: the component it leaves and
    what it writes with [console.error]. *)
Definition on_error (err : string) (this : AppComponent)
    : AppComponent * list string :=
  let this := set_statusText "Error during analysis. Check backend." this in
  let this := set_backendStatus "error" this in
  (set_loading false this, [err]).

(** The component in its environment: the requests handed to the analysis
    service so far and the lines written to the console. *)
Record World : Type := {
  component : AppComponent;
  requests : list AnalyzeRequestPayload;
  console : list string
}.

Inductive Event : Type :=
| Submit                                   (* the user runs the analysis *)
| Succeeds (res : AnalyzeResponsePayload)  (* a request delivers *)
| Fails (err : string).                    (* a request fails *)

Definition step (w : World) (ev : Event) : World :=
  match ev with
  | Submit =>
    let '(this, request) := runAnalysis (component w) in
    {| component := this;
       requests := match request with
                   | Some payload => requests w ++ [payload]
                   | None => requests w
                   end;
       console := console w |}
  | Succeeds res =>
    {| component := on_next res (component w);
       requests := requests w;
       console := console w |}
  | Fails err =>
    let '(this, lines) := on_error err (component w) in
    {| component := this;
       requests := requests w;
       console := console w ++ lines |}
  end.

(* ================================================================== *)
(** * Vocabulary of the properties                                     *)
(* ================================================================== *)

(** Where a node is drawn. *)
Definition position (n : DagNode) : Z * Z := (node_x n, node_y n).

(** The covariates of a template ([tpl.Z || []]). *)
Definition covariates (tpl : CausalTemplate) : list string :=
  match Template_Z tpl with
  | Some zs => zs
  | None => []
  end.

(** The template the getters read ([this.result?.Template]). *)
Definition template (this : AppComponent) : option CausalTemplate :=
  match result this with
  | Some res => Response_Template res
  | None => None
  end.

(** The node of the covariate [z] at index [i], as the layout contract
    describes it: even indices on the top row, odd ones on the bottom row,
    one increment of 80 to the right every two covariates. *)
Definition covariate_node (i : nat) (z : string) : DagNode :=
  {| node_id := z;
     node_label := ("Z: " ++ z)%string;
     node_kind := KindZ;
     node_x := 80 + 80 * Z.of_nat (Nat.div2 i);
     node_y := if Nat.even i then 30 else 150 |}.

Definition treatment_node (tpl : CausalTemplate) : DagNode :=
  {| node_id := Template_X tpl;
     node_label := ("X: " ++ Template_X tpl)%string;
     node_kind := KindX;
     node_x := 80;
     node_y := 90 |}.

Definition outcome_node (tpl : CausalTemplate) : DagNode :=
  {| node_id := Template_Y tpl;
     node_label := ("Y: " ++ Template_Y tpl)%string;
     node_kind := KindY;
     node_x := 260;
     node_y := 90 |}.

(** The covariate nodes of [zs], the first one having index [i]. *)
Fixpoint covariate_nodes_from (i : nat) (zs : list string) : list DagNode :=
  match zs with
  | [] => []
  | z :: rest => covariate_node i z :: covariate_nodes_from (S i) rest
  end.

(** A component holding a result with the template [tpl]. *)
Definition shows (this : AppComponent) (tpl : CausalTemplate) : Prop :=
  exists res, result this = Some res /\ Response_Template res = Some tpl.

(** The pair an edge was projected from. *)
Definition edge_pair (e : DagEdge) : string * string := (edge_from e, edge_to e).

(** ** Sample data *)

(** The scenario of the caffeine claim, with three covariates. *)
Definition sample_template : CausalTemplate :=
  {| Template_X := "coffee";
     Template_Y := "sleep quality";
     Template_Z := Some ["age"; "stress"; "exercise"];
     Template_Edges := Some [("coffee", "sleep quality");
                             ("age", "coffee");
                             ("age", "coffee")];
     Template_Note := "" |}.

Definition sample_response (m c : number) (details : option string)
    : AnalyzeResponsePayload :=
  {| Response_TextClaim := "Does coffee cause better sleep?";
     Response_Domain := "health";
     Response_Rung := "L2";
     Response_Template := Some sample_template;
     Response_Estimand := {| Estimand_Identifiable := true;
                             Estimand_Expression := "P(Y | do(X))";
                             Estimand_Reason := "" |};
     Response_SourceTrust := [];
     Response_AggregatedTrust := {| Trust_m := m; Trust_c := c;
                                    Trust_Source := None;
                                    Trust_Details := details |};
     Response_Explanation := "" |}.

(** The component after a response with the aggregated trust [T(m, c)]. *)
Definition showing (m c : number) (details : option string) : AppComponent :=
  on_next (sample_response m c details) initial.

(** [T(0.8, 0.6)] with its details. *)
Definition sample : AppComponent :=
  showing (of_decimal 8 1) (of_decimal 6 1) (Some "2 sources, avg recency 3y").

(** What [runAnalysis] leaves alone in every case: the form and the
    result. *)
Definition same_form (this that : AppComponent) : Prop :=
  title that = title this /\ claim that = claim this
  /\ domain that = domain this /\ sourceType that = sourceType this
  /\ sourceUrl that = sourceUrl this /\ sourceTitle that = sourceTitle this
  /\ sourceYear that = sourceYear this /\ sampleSize that = sampleSize this.

(** [n] is the integer closest to [v], the larger one when two are as
    close. *)
Definition nearest_half_up (v : Q) (n : Z) : Prop :=
  (inject_Z n - (1 # 2) <= v)%Q /\ (v < inject_Z n + (1 # 2))%Q.

(** A mantissa of 53 bits at most, as every Number has. *)
Definition mantissa_bounded (x : number) : Prop :=
  match x with
  | S754_finite _ m _ => Zpos m < 2 ^ 53
  | _ => True
  end.

(** ** The trust hint *)

Definition is_digit (c : ascii) : bool :=
  let k := N_of_ascii c in ((48 <=? k) && (k <=? 57))%N.

Fixpoint all_digits (s : string) : bool :=
  match s with
  | EmptyString => true
  | String c rest => is_digit c && all_digits rest
  end.

(** A numeral with exactly two decimal places: an optional minus sign, one
    digit or more, the point and two digits. *)
Inductive two_decimals : string -> Prop :=
| two_decimals_of (negative : bool) (int : string) (d1 d2 : ascii) :
    int <> "" -> all_digits int = true ->
    is_digit d1 = true -> is_digit d2 = true ->
    two_decimals ((if negative then "-" else "") ++ int ++ "."
                    ++ String d1 (String d2 ""))%string.

(** [s] is the value [v] rounded to two decimal places: the numeral of the
    hundredths [n] closest to the magnitude of [v], the larger in a tie,
    after the sign of [v]. *)
Definition rounded_to_hundredths (v : Q) (s : string) : Prop :=
  exists n : Z,
    nearest_half_up (inject_Z 100 * Qabs v) n
    /\ s = ((if Z.ltb (Qnum v) 0 then "-" else "") ++ decimal (n / 100) ++ "."
              ++ digit (n / 10 mod 10) ++ digit (n mod 10))%string.

(** The text of [Details] ([agg.Details ?? '']). *)
Definition details_text (agg : Trust) : string :=
  match Trust_Details agg with
  | Some details => details
  | None => ""
  end.

(** The aggregated trust is exactly [(0, 0)] and its details contain
    "no sources". *)
Definition no_sources (agg : Trust) : Prop :=
  value (Trust_m agg) = Some 0%Q
  /\ value (Trust_c agg) = Some 0%Q
  /\ exists before after : string,
       Trust_Details agg = Some (before ++ "no sources" ++ after)%string.

(** The formatted hint with the numerals [sm] and [sc]. *)
Definition formatted_hint (sm sc details : string) : string :=
  ("Aggregated trust T(m, c) = (" ++ sm ++ ", " ++ sc ++ ") · " ++ details)%string.

(** The hint embeds two numerals of two decimal places each. *)
Definition hint_has_two_decimals (this : AppComponent) (agg : Trust) : Prop :=
  exists sm sc : string,
    two_decimals sm /\ two_decimals sc
    /\ trustHint this = formatted_hint sm sc (details_text agg).

(** A belief mass of [10^21], as the backend may send it. *)
Definition huge : AppComponent := showing (of_Z (10 ^ 21)) (of_Z 0) None.

(** ** The percentages *)

(** The range [0, 1] in which a belief mass and a confidence are meant to
    lie. *)
Definition unit_range (x : number) : Prop :=
  exists v : Q, value x = Some v /\ (0 <= v)%Q /\ (v <= 1)%Q.

(** A belief mass of 1.004, just above the range. *)
Definition slightly_above : AppComponent :=
  showing (of_decimal 1004 3) (of_Z 0) None.

(** ** Lookup *)

(** The names a template draws: the treatment, the outcome and the
    covariates, in the order of the nodes. *)
Definition node_names (tpl : CausalTemplate) : list string :=
  Template_X tpl :: Template_Y tpl :: covariates tpl.

(** The edges of a template ([tpl.Edges], nothing when absent). *)
Definition template_edges (tpl : CausalTemplate) : list (string * string) :=
  match Template_Edges tpl with
  | Some edges => edges
  | None => []
  end.

(** ** Runs of the component *)

(** The world after a sequence of events. *)
Definition run (w : World) (events : list Event) : World :=
  fold_left step events w.

(** The response of the last success among [events], [before] when there is
    none. *)
Fixpoint last_success (before : option AnalyzeResponsePayload)
    (events : list Event) : option AnalyzeResponsePayload :=
  match events with
  | [] => before
  | Succeeds res :: rest => last_success (Some res) rest
  | _ :: rest => last_success before rest
  end.

(** The errors of the failures among [events], in their order. *)
Fixpoint failures (events : list Event) : list string :=
  match events with
  | [] => []
  | Fails err :: rest => err :: failures rest
  | _ :: rest => failures rest
  end.

(** How many times the user runs the analysis in [events]. *)
Fixpoint submissions (events : list Event) : nat :=
  match events with
  | [] => O
  | Submit :: rest => S (submissions rest)
  | _ :: rest => submissions rest
  end.

(** An event that is no response of the service. *)
Definition is_submit (ev : Event) : Prop := ev = Submit.

(** An event that is no success. *)
Definition no_success (ev : Event) : Prop :=
  match ev with
  | Succeeds _ => False
  | _ => True
  end.

(** ** White space *)

(** A white-space character (the encoding of one). *)
Definition white (w : string) : Prop := In w white_space.

(** The strings of [parts] one after the other. *)
Definition join (parts : list string) : string :=
  fold_right String.append EmptyString parts.

(** A string made of white-space characters only (the empty string is). *)
Definition blank (s : string) : Prop :=
  exists ws : list string, Forall white ws /\ s = join ws.

(** A string that neither starts nor ends with a white-space character. *)
Definition trimmed (s : string) : Prop :=
  forall w rest : string,
    white w -> s <> (w ++ rest)%string /\ s <> (rest ++ w)%string.

(** ** Rounding *)

(** The number of binary places [shr_fexp] drops. *)
Definition dropped (m e : Z) : Z :=
  Z.max 0 (fexp prec emax (Zdigits2 m + e) - e).

(** Nothing is lost so far, and the next [q] places hold zeros. *)
Definition exact_for (q : Z) (mrs : shr_record) : Prop :=
  0 <= shr_m mrs /\ shr_r mrs = false /\ shr_s mrs = false
  /\ shr_m mrs mod 2 ^ q = 0.

(** ** Displays *)

(** The numeral of [n] hundredths, for [n] from 0 to 999: one digit, the
    point and two digits. *)
Definition hundredths_numeral (n : Z) : string :=
  (digit (n / 100) ++ "." ++ digit (n / 10 mod 10) ++ digit (n mod 10))%string.



(* ================================================================== *)
(** * The diagram layout                                               *)
(* ================================================================== *)

Section Layout.

Lemma even_of_nat (i : nat) : Z.even (Z.of_nat i) = Nat.even i.
Proof.
  destruct (Nat.even i) eqn:E.
  - apply Nat.even_spec in E. destruct E as [k ->].
    apply Z.even_spec. exists (Z.of_nat k). lia.
  - assert (O : Nat.odd i = true) by (rewrite <- Nat.negb_even, E; reflexivity).
    apply Nat.odd_spec in O. destruct O as [k ->].
    rewrite <- Z.negb_odd. apply negb_false_iff.
    apply Z.odd_spec. exists (Z.of_nat k). lia.
Qed.

Lemma push_covariate_spec (nodes : list DagNode) (z : string) (i : nat) :
  push_covariate nodes z i = nodes ++ [covariate_node i z].
Proof.
  unfold push_covariate, push, covariate_node, topY, bottomY.
  do 2 f_equal. f_equal.
  - rewrite Nat.div2_div, Nat2Z.inj_div.
    change (Z.of_nat 2) with 2. ring.
  - destruct (Nat.even i) eqn:E.
    + apply Nat.even_spec in E. destruct E as [k ->].
      rewrite Nat2Z.inj_mul, Z.mul_comm, Z_mod_mult. reflexivity.
    + assert (O : Nat.odd i = true) by (rewrite <- Nat.negb_even, E; reflexivity).
      apply Nat.odd_spec in O. destruct O as [k ->].
      replace (Z.of_nat (2 * k + 1)) with (1 + Z.of_nat k * 2) by lia.
      rewrite Z_mod_plus_full. reflexivity.
Qed.

Lemma forEach_from_push_covariate (zs : list string) :
  forall (i : nat) (nodes : list DagNode),
    forEach_from push_covariate zs i nodes
    = nodes ++ covariate_nodes_from i zs.
Proof.
  induction zs as [|z zs IH]; intros i nodes; simpl.
  - now rewrite app_nil_r.
  - rewrite IH, push_covariate_spec, <- app_assoc. reflexivity.
Qed.

Lemma template_shows (this : AppComponent) (tpl : CausalTemplate) :
  template this = Some tpl <-> shows this tpl.
Proof.
  unfold template, shows. split.
  - destruct (result this) as [res|]; [|discriminate].
    intros H. now exists res.
  - intros (res & -> & H). exact H.
Qed.

(** The array [dagNodes] returns for a template. *)
Lemma dagNodes_shows (this : AppComponent) (tpl : CausalTemplate) :
  shows this tpl ->
  dagNodes this
  = treatment_node tpl :: outcome_node tpl
      :: covariate_nodes_from 0 (covariates tpl).
Proof.
  intros (res & Hres & Htpl). unfold dagNodes. rewrite Hres, Htpl.
  unfold forEach. rewrite forEach_from_push_covariate. reflexivity.
Qed.

Lemma dagNodes_no_template (this : AppComponent) :
  template this = None -> dagNodes this = [].
Proof.
  unfold template, dagNodes. destruct (result this) as [res|]; [|reflexivity].
  now intros ->.
Qed.

Lemma covariate_nodes_from_length (zs : list string) :
  forall i, List.length (covariate_nodes_from i zs) = List.length zs.
Proof. induction zs as [|z zs IH]; intros i; simpl; [|rewrite IH]; reflexivity. Qed.

Lemma covariate_nodes_from_nth (zs : list string) :
  forall i j z,
    nth_error zs j = Some z ->
    nth_error (covariate_nodes_from i zs) j = Some (covariate_node (i + j) z).
Proof.
  induction zs as [|z0 zs IH]; intros i [|j] z H; simpl in *; try discriminate.
  - injection H as ->. now rewrite Nat.add_0_r.
  - rewrite (IH (S i) j z H). do 2 f_equal. lia.
Qed.

End Layout.

Section LayoutProperties.

(** The point at which the covariate of index [i] is drawn. *)
Lemma position_covariate_node (i : nat) (z : string) :
  position (covariate_node i z)
  = (80 + 80 * Z.of_nat (Nat.div2 i), if Nat.even i then 30 else 150).
Proof. reflexivity. Qed.

Lemma covariate_position_injective (i j : nat) (zi zj : string) :
  position (covariate_node i zi) = position (covariate_node j zj) -> i = j.
Proof.
  rewrite !position_covariate_node. intros H.
  apply pair_equal_spec in H. destruct H as [Hx Hy].
  assert (Hd : Nat.div2 i = Nat.div2 j) by lia.
  assert (He : Nat.even i = Nat.even j)
    by (destruct (Nat.even i), (Nat.even j); try reflexivity; discriminate).
  rewrite (Nat.div2_odd i), (Nat.div2_odd j), <- !Nat.negb_even, Hd, He.
  reflexivity.
Qed.

Lemma covariate_nodes_from_In (zs : list string) :
  forall i n,
    In n (covariate_nodes_from i zs) ->
    exists j z, (i <= j)%nat /\ n = covariate_node j z.
Proof.
  induction zs as [|z0 zs IH]; intros i n; simpl; [tauto|].
  intros [<- | H].
  - exists i, z0. split; [lia | reflexivity].
  - destruct (IH _ _ H) as (j & z & Hj & ->).
    exists j, z. split; [lia | reflexivity].
Qed.

Lemma covariate_positions_NoDup (zs : list string) :
  forall i, NoDup (map position (covariate_nodes_from i zs)).
Proof.
  induction zs as [|z zs IH]; intros i; simpl; constructor; [|apply IH].
  intros Hin. apply in_map_iff in Hin. destruct Hin as (n & Hpos & Hn).
  apply covariate_nodes_from_In in Hn. destruct Hn as (j & zj & Hj & ->).
  apply covariate_position_injective in Hpos. lia.
Qed.

(** No covariate is drawn on the middle row, where X and Y are. *)
Lemma covariate_off_middle_row (zs : list string) (i : nat) (x : Z) :
  ~ In (x, 90) (map position (covariate_nodes_from i zs)).
Proof.
  intros Hin. apply in_map_iff in Hin. destruct Hin as (n & Hpos & Hn).
  apply covariate_nodes_from_In in Hn. destruct Hn as (j & zj & _ & ->).
  rewrite position_covariate_node in Hpos.
  destruct (Nat.even j); discriminate.
Qed.

Lemma dagNodes_positions_NoDup (this : AppComponent) :
  NoDup (map position (dagNodes this)).
Proof.
  destruct (template this) as [tpl|] eqn:Ht.
  - apply template_shows in Ht.
    rewrite (dagNodes_shows _ _ Ht). simpl.
    constructor; [|constructor].
    + intros [H | H]; [discriminate|].
      exact (covariate_off_middle_row _ _ _ H).
    + apply covariate_off_middle_row.
    + apply covariate_positions_NoDup.
  - rewrite (dagNodes_no_template _ Ht). constructor.
Qed.

End LayoutProperties.

(** C1.  For a template with [k] covariates, [dagNodes] returns [k + 2]
    nodes in the order X, Y, Z0, Z1, ...: the treatment at (80, 90), the
    outcome at (260, 90), on the same row, and the covariate of index [i] on
    the top row ([y = 30]) when [i] is even and on the bottom row ([y = 150])
    when it is odd, at [x = 80 + 80 * floor (i / 2)]. *)
Theorem dagNodes_layout (this : AppComponent) (tpl : CausalTemplate) :
  shows this tpl ->
  let zs := covariates tpl in
  let nodes := dagNodes this in
  List.length nodes = (List.length zs + 2)%nat
  /\ nth_error nodes 0 =
       Some {| node_id := Template_X tpl;
               node_label := ("X: " ++ Template_X tpl)%string;
               node_kind := KindX; node_x := 80; node_y := 90 |}
  /\ nth_error nodes 1 =
       Some {| node_id := Template_Y tpl;
               node_label := ("Y: " ++ Template_Y tpl)%string;
               node_kind := KindY; node_x := 260; node_y := 90 |}
  /\ (forall (i : nat) (z : string),
        nth_error zs i = Some z ->
        nth_error nodes (i + 2) =
          Some {| node_id := z;
                  node_label := ("Z: " ++ z)%string;
                  node_kind := KindZ;
                  node_x := 80 + 80 * (Z.of_nat i / 2);
                  node_y := if Z.even (Z.of_nat i) then 30 else 150 |}).
Proof.
  intros Hs zs nodes. subst nodes. rewrite (dagNodes_shows _ _ Hs).
  fold zs. repeat split.
  - simpl. rewrite covariate_nodes_from_length. lia.
  - intros i z Hz. rewrite Nat.add_comm. simpl.
    rewrite (covariate_nodes_from_nth _ 0 i z Hz). simpl.
    unfold covariate_node. do 2 f_equal.
    + rewrite Nat.div2_div, Nat2Z.inj_div. reflexivity.
    + now rewrite even_of_nat.
Qed.

Lemma sample_shows : shows sample sample_template.
Proof. eexists. split; reflexivity. Qed.

Lemma dagNodes_layout_witness :
  shows sample sample_template
  /\ List.length (dagNodes sample) = 5%nat
  /\ nth_error (covariates sample_template) 2 = Some "exercise"
  /\ nth_error (dagNodes sample) 4
     = Some {| node_id := "exercise"; node_label := "Z: exercise";
               node_kind := KindZ; node_x := 160; node_y := 30 |}.
Proof.
  pose proof (dagNodes_layout sample sample_template sample_shows) as H.
  split; [exact sample_shows|]. split; [exact (proj1 H)|].
  split; [reflexivity|].
  exact (proj2 (proj2 (proj2 H)) 2%nat "exercise" eq_refl).
Defined.

(** C5.  The nodes [dagNodes] returns are drawn at pairwise distinct points:
    no two of them, whether treatment, outcome or covariates, share their
    [(x, y)], whatever the number of covariates. *)
Theorem dagNodes_positions_distinct (this : AppComponent) :
  NoDup (map position (dagNodes this))
  /\ (forall (i j : nat) (a b : DagNode),
        nth_error (dagNodes this) i = Some a ->
        nth_error (dagNodes this) j = Some b ->
        i <> j ->
        (node_x a, node_y a) <> (node_x b, node_y b)).
Proof.
  pose proof (dagNodes_positions_NoDup this) as Hnd.
  split; [exact Hnd|].
  intros i j a b Ha Hb Hij Heq. apply Hij.
  rewrite NoDup_nth_error in Hnd. apply Hnd.
  - rewrite length_map. apply nth_error_Some. now rewrite Ha.
  - rewrite !nth_error_map, Ha, Hb. simpl. f_equal. exact Heq.
Qed.

Lemma dagNodes_positions_distinct_witness :
  nth_error (dagNodes sample) 0 <> None
  /\ nth_error (dagNodes sample) 2 <> None
  /\ (forall a b,
        nth_error (dagNodes sample) 0 = Some a ->
        nth_error (dagNodes sample) 2 = Some b ->
        (node_x a, node_y a) <> (node_x b, node_y b)).
Proof.
  split; [discriminate|]. split; [discriminate|].
  intros a b Ha Hb.
  apply (proj2 (dagNodes_positions_distinct sample) 0%nat 2%nat a b Ha Hb).
  discriminate.
Defined.

(** C6.  [dagEdges] returns one edge per pair of [Edges], copied as it is
    and in the order of [Edges]: as many edges as pairs, the edge at each
    index made of the pair at that index, so that reading the pairs back
    from the edges gives [Edges] itself, duplicates included. *)
Theorem dagEdges_verbatim (this : AppComponent) (tpl : CausalTemplate)
    (edges : list (string * string)) :
  shows this tpl ->
  Template_Edges tpl = Some edges ->
  List.length (dagEdges this) = List.length edges
  /\ map edge_pair (dagEdges this) = edges
  /\ (forall (i : nat) (from to : string),
        nth_error edges i = Some (from, to) ->
        nth_error (dagEdges this) i
        = Some {| edge_from := from; edge_to := to |}).
Proof.
  intros (res & Hres & Htpl) Hedges. unfold dagEdges.
  rewrite Hres, Htpl, Hedges. repeat split.
  - apply length_map.
  - rewrite map_map. rewrite <- (map_id edges) at 2.
    apply map_ext. now intros [from to].
  - intros i from to Hi. rewrite nth_error_map, Hi. reflexivity.
Qed.

Lemma dagEdges_verbatim_witness :
  shows sample sample_template
  /\ Template_Edges sample_template
     = Some [("coffee", "sleep quality"); ("age", "coffee"); ("age", "coffee")]
  /\ List.length (dagEdges sample) = 3%nat.
Proof.
  split; [exact sample_shows|]. split; [reflexivity|].
  exact (proj1 (dagEdges_verbatim sample sample_template _ sample_shows eq_refl)).
Defined.

(** C9.  The layout getters are functions of the template alone: two
    components that hold the same template, whatever their other fields,
    get the same nodes and the same edges (so does one component asked
    twice); and the points at which the nodes are drawn depend on the
    number of covariates only, not on any name. *)
Theorem layout_deterministic (this that : AppComponent) :
  (template this = template that ->
     dagNodes this = dagNodes that /\ dagEdges this = dagEdges that)
  /\ (forall tpl tpl' : CausalTemplate,
        shows this tpl -> shows that tpl' ->
        List.length (covariates tpl) = List.length (covariates tpl') ->
        map position (dagNodes this) = map position (dagNodes that)).
Proof.
  split.
  - unfold template, dagNodes, dagEdges.
    destruct (result this) as [res|], (result that) as [res'|]; intros H.
    + now rewrite H.
    + now rewrite H.
    + now rewrite <- H.
    + now split.
  - intros tpl tpl' Hs Hs' Hlen.
    rewrite (dagNodes_shows _ _ Hs), (dagNodes_shows _ _ Hs'). simpl.
    do 2 f_equal.
    generalize dependent (covariates tpl'). generalize 0%nat.
    induction (covariates tpl) as [|z zs IH]; intros i [|z' zs'] Hlen;
      try discriminate; [reflexivity|].
    simpl. f_equal. apply IH. now injection Hlen.
Qed.

Lemma layout_deterministic_witness :
  template sample = template (set_statusText "Idle" (set_loading true sample))
  /\ dagNodes sample = dagNodes (set_statusText "Idle" (set_loading true sample)).
Proof.
  split; [reflexivity|].
  exact (proj1 (proj1 (layout_deterministic sample _) eq_refl)).
Defined.

(* ================================================================== *)
(** * The ladder display                                               *)
(* ================================================================== *)

(** The rung the ladder getters read, when there is a result. *)
Lemma rungLabel_cases (this : AppComponent) :
  (rungLabel this = "L2 · Intervention" /\ rungClass this = "badge-rung-l2"
   /\ option_map Response_Rung (result this) = Some "L2")
  \/ (rungLabel this = "L3 · Counterfactual" /\ rungClass this = "badge-rung-l3"
      /\ option_map Response_Rung (result this) = Some "L3")
  \/ (rungLabel this = "L1 · Association" /\ rungClass this = "badge-rung-l1"
      /\ option_map Response_Rung (result this) <> Some "L2"
      /\ option_map Response_Rung (result this) <> Some "L3").
Proof.
  unfold rungLabel, rungClass. destruct (result this) as [res|]; simpl.
  - destruct (String.eqb_spec (Response_Rung res) "L2") as [E2|N2].
    + left. now rewrite E2.
    + destruct (String.eqb_spec (Response_Rung res) "L3") as [E3|N3].
      * right; left. now rewrite E3.
      * right; right. repeat split; congruence.
  - right; right. repeat split; discriminate.
Qed.

(** C4.  The rung [L2] gets the Intervention label and [L3] the
    Counterfactual one; any other rung, and the absence of a result, gets the
    Association label.  The style tag is chosen under the same conditions:
    the [l2] style goes with the Intervention label, the [l3] style with the
    Counterfactual label and the [l1] style with the Association label, in
    every state. *)
Theorem rung_label_and_class (this : AppComponent) :
  let rung := option_map Response_Rung (result this) in
  (rung = Some "L2" <-> rungLabel this = "L2 · Intervention")
  /\ (rung = Some "L3" <-> rungLabel this = "L3 · Counterfactual")
  /\ (rung <> Some "L2" /\ rung <> Some "L3"
      <-> rungLabel this = "L1 · Association")
  /\ (rungClass this = "badge-rung-l2" <-> rungLabel this = "L2 · Intervention")
  /\ (rungClass this = "badge-rung-l3"
      <-> rungLabel this = "L3 · Counterfactual")
  /\ (rungClass this = "badge-rung-l1" <-> rungLabel this = "L1 · Association").
Proof.
  intros rung. subst rung.
  destruct (rungLabel_cases this)
    as [(-> & -> & ->) | [(-> & -> & ->) | (-> & -> & N2 & N3)]];
    repeat split; intros; try reflexivity; try discriminate; try tauto;
    try (exfalso; intuition discriminate).
Qed.

(* ================================================================== *)
(** * [runAnalysis]                                                    *)
(* ================================================================== *)

Lemma falsy_empty (s : string) : falsy s = true <-> s = "".
Proof. destruct s; simpl; split; congruence. Qed.

(** C7.  When the claim is empty once trimmed, [runAnalysis] only validates:
    it sets the status text and returns, hands no request to the analysis
    service, and leaves the result, the loading flag, the backend status and
    the form as they were. *)
Theorem runAnalysis_empty_claim (w : World) :
  trim (claim (component w)) = "" ->
  let this := component w in
  let w' := step w Submit in
  runAnalysis this
  = (set_statusText "Please enter a claim before running analysis." this, None)
  /\ requests w' = requests w
  /\ console w' = console w
  /\ statusText (component w')
     = "Please enter a claim before running analysis."
  /\ result (component w') = result this
  /\ loading (component w') = loading this
  /\ backendStatus (component w') = backendStatus this
  /\ same_form this (component w').
Proof.
  intros Hempty this w'.
  assert (Hrun : runAnalysis this
                 = (set_statusText
                      "Please enter a claim before running analysis." this,
                    None)).
  { unfold runAnalysis. fold this in Hempty. rewrite Hempty. reflexivity. }
  subst w'. unfold step. fold this. rewrite Hrun. simpl.
  unfold same_form. simpl. repeat split.
Qed.

Lemma runAnalysis_empty_claim_witness :
  let w := {| component := set_result (result sample) initial;
              requests := []; console := [] |} in
  trim (claim (component w)) = ""
  /\ requests (step w Submit) = []
  /\ result (component (step w Submit)) = result sample.
Proof.
  intros w.
  pose proof (runAnalysis_empty_claim w eq_refl) as H.
  split; [reflexivity|]. split.
  - exact (proj1 (proj2 H)).
  - exact (proj1 (proj2 (proj2 (proj2 (proj2 H))))).
Defined.

(** C8.  When a request fails, the error callback sets the status text, the
    backend status and the loading flag and nothing else: the result stored
    before, if any, is still the result, so that the last good result stays
    on display, and no request is sent. *)
Theorem failure_keeps_result (w : World) (err : string) :
  let this := component w in
  let w' := step w (Fails err) in
  result (component w') = result this
  /\ statusText (component w') = "Error during analysis. Check backend."
  /\ backendStatus (component w') = "error"
  /\ loading (component w') = false
  /\ same_form this (component w')
  /\ requests w' = requests w
  /\ console w' = console w ++ [err]
  /\ (forall res : AnalyzeResponsePayload,
        result (component (step (step (step w (Succeeds res)) Submit)
                                (Fails err)))
        = Some res).
Proof.
  intros this w'. subst w' this. unfold same_form. simpl.
  repeat split.
  intros res. unfold runAnalysis. simpl.
  destruct (falsy (trim (claim (component w)))); reflexivity.
Qed.

(* ================================================================== *)
(** * Numbers                                                          *)
(* ================================================================== *)

Section Binary64.

Lemma digits2_pos_size (p : positive) : digits2_pos p = Pos.size p.
Proof. induction p; simpl; congruence. Qed.

Lemma digits2_pos_upper (p : positive) : Zpos p < 2 ^ Zpos (digits2_pos p).
Proof.
  rewrite digits2_pos_size.
  pose proof (Pos.size_gt p) as H.
  rewrite <- Pos2Z.inj_pow. exact H.
Qed.

Lemma digits2_pos_lower (p : positive) : 2 ^ Zpos (digits2_pos p) <= 2 * Zpos p.
Proof.
  rewrite digits2_pos_size.
  pose proof (Pos.size_le p) as H.
  rewrite <- Pos2Z.inj_pow. exact H.
Qed.

Lemma digits2_pos_shift (p k : positive) :
  digits2_pos (Pos.iter xO p k) = (digits2_pos p + k)%positive.
Proof.
  induction k as [|k IH] using Pos.peano_ind.
  - simpl. lia.
  - rewrite Pos.iter_succ. simpl. rewrite IH. lia.
Qed.

Lemma Zpos_shift (p k : positive) :
  Zpos (Pos.iter xO p k) = Zpos p * 2 ^ Zpos k.
Proof.
  induction k as [|k IH] using Pos.peano_ind.
  - simpl. lia.
  - rewrite Pos.iter_succ, Pos2Z.inj_succ, Z.pow_succ_r by lia.
    rewrite Pos2Z.inj_xO, IH. ring.
Qed.

(** Rounding a mantissa of 53 bits at an exponent in range changes
    nothing. *)
Lemma binary_round_aux_exact (s : bool) (m : positive) (e : Z) :
  Zpos (digits2_pos m) = 53 -> -1074 <= e <= 971 ->
  binary_round_aux prec emax s (Zpos m) e loc_Exact = S754_finite s m e.
Proof.
  intros Hd He. unfold binary_round_aux.
  assert (Hshr : shr_fexp prec emax (Zpos m) e loc_Exact
                 = ({| shr_m := Zpos m; shr_r := false; shr_s := false |}, e)).
  { unfold shr_fexp, fexp, emin, prec, emax. simpl Zdigits2. rewrite Hd.
    replace (Z.max (53 + e - 53) (3 - 1024 - 53) - e) with 0 by lia.
    reflexivity. }
  rewrite Hshr. simpl. rewrite Hshr. simpl.
  destruct (Z.leb_spec e 971); [reflexivity | lia].
Qed.

Lemma of_Z_pos (p : positive) :
  Zpos p < 2 ^ 53 ->
  exists m e, of_Z (Zpos p) = S754_finite false m e
    /\ e <= 0 /\ Zpos m = Zpos p * 2 ^ (- e).
Proof.
  intros Hp.
  assert (Hd : Zpos (digits2_pos p) <= 53).
  { pose proof (digits2_pos_lower p).
    destruct (Z.le_gt_cases (Zpos (digits2_pos p)) 53) as [H1|H1]; [exact H1|].
    assert (2 ^ 54 <= 2 ^ Zpos (digits2_pos p)) by (apply Z.pow_le_mono_r; lia).
    change (2 ^ 54) with (2 * 2 ^ 53) in *. lia. }
  unfold of_Z, binary_normalize, binary_round.
  unfold fexp, emin, prec, emax.
  replace (Z.max (Zpos (digits2_pos p) + 0 - 53) (3 - 1024 - 53))
    with (Zpos (digits2_pos p) - 53) by lia.
  unfold shl_align.
  destruct (Zpos (digits2_pos p) - 53 - 0) as [|k|k] eqn:Hk; try lia.
  - exists p, 0. split; [|split; [lia | simpl; lia]].
    apply (binary_round_aux_exact false p 0); lia.
  - exists (Pos.iter xO p k), (Zpos (digits2_pos p) - 53).
    split; [|split; [lia|]].
    + apply (binary_round_aux_exact false); [|lia].
      rewrite digits2_pos_shift. lia.
    + rewrite Zpos_shift. f_equal. f_equal. lia.
Qed.

Lemma of_Z_neg (p : positive) : of_Z (Zneg p) = SFopp (of_Z (Zpos p)).
Proof.
  unfold of_Z, binary_normalize, binary_round.
  destruct (shl_align p 0 _) as [mz ez].
  unfold binary_round_aux.
  destruct (shr_fexp prec emax (Zpos mz) ez loc_Exact) as [mrs e'].
  destruct (shr_fexp prec emax _ e' loc_Exact) as [mrs' e''].
  destruct (shr_m mrs'); try reflexivity.
  destruct (e'' <=? emax - prec); reflexivity.
Qed.

Lemma integer_value_finite (s : bool) (m : positive) (e : Z) (k : Z) :
  e <= 0 -> 0 < k -> Zpos m = k * 2 ^ (- e) ->
  integer_value (S754_finite s m e) = Some (cond_Zopp s k).
Proof.
  intros He Hk Hm. unfold integer_value, numerator, denominator.
  rewrite Z.max_l by lia. rewrite Z.max_r by lia.
  rewrite Z.pow_0_r, Z.mul_1_r, Hm.
  assert (0 < 2 ^ (- e)) by (apply Z.pow_pos_nonneg; lia).
  rewrite Z_mod_mult, Z.div_mul by lia. reflexivity.
Qed.

(** The Number of an integer below [2^53] in magnitude denotes it. *)
Lemma of_Z_exact (n : Z) :
  Z.abs n < 2 ^ 53 -> integer_value (of_Z n) = Some n.
Proof.
  intros Hn. destruct n as [|p|p].
  - reflexivity.
  - destruct (of_Z_pos p Hn) as (m & e & -> & He & Hm).
    now rewrite (integer_value_finite false m e (Zpos p)).
  - rewrite of_Z_neg.
    destruct (of_Z_pos p Hn) as (m & e & -> & He & Hm). simpl SFopp.
    now rewrite (integer_value_finite true m e (Zpos p)).
Qed.

Lemma Zdigits2_upper (m : Z) : 0 <= m -> m < 2 ^ Zdigits2 m.
Proof.
  destruct m as [|p|p]; intros H; simpl; [lia | apply digits2_pos_upper | lia].
Qed.

Lemma Zdigits2_nonneg (m : Z) : 0 <= Zdigits2 m.
Proof. destruct m; simpl; lia. Qed.

Lemma shr_1_m (mrs : shr_record) :
  0 <= shr_m mrs -> shr_m (shr_1 mrs) = shr_m mrs / 2.
Proof.
  destruct mrs as [m r s]. simpl. intros Hm.
  destruct m as [|[p|p|]|p]; simpl; try reflexivity; try lia.
  - rewrite Pos2Z.inj_xI. apply (Z.div_unique_pos _ _ _ 1); lia.
  - rewrite Pos2Z.inj_xO. apply (Z.div_unique_pos _ _ _ 0); lia.
Qed.

Lemma iter_shr_1_m (p : positive) :
  forall mrs : shr_record,
    0 <= shr_m mrs ->
    shr_m (iter_pos shr_1 p mrs) = shr_m mrs / 2 ^ Zpos p.
Proof.
  induction p as [p IH|p IH|]; intros mrs Hm; simpl iter_pos.
  - assert (H1 : 0 <= shr_m (shr_1 mrs))
      by (rewrite shr_1_m by exact Hm; apply Z.div_pos; lia).
    assert (H2 : 0 <= shr_m (iter_pos shr_1 p (shr_1 mrs)))
      by (rewrite IH by exact H1; apply Z.div_pos; [exact H1 | lia]).
    rewrite IH, IH, shr_1_m by assumption.
    assert (Hp : 0 < 2 ^ Zpos p) by (apply Z.pow_pos_nonneg; lia).
    rewrite !Z.div_div by lia. f_equal.
    replace (Zpos p~1) with (1 + Zpos p + Zpos p) by lia.
    rewrite !Z.pow_add_r, Z.pow_1_r by lia. ring.
  - assert (H2 : 0 <= shr_m (iter_pos shr_1 p mrs))
      by (rewrite IH by exact Hm; apply Z.div_pos; [exact Hm | lia]).
    rewrite IH, IH by assumption.
    assert (Hp : 0 < 2 ^ Zpos p) by (apply Z.pow_pos_nonneg; lia).
    rewrite !Z.div_div by lia. f_equal.
    replace (Zpos p~0) with (Zpos p + Zpos p) by lia.
    rewrite Z.pow_add_r by lia. ring.
  - rewrite shr_1_m by exact Hm. reflexivity.
Qed.

(** Whatever it is given, [shr_fexp] leaves a mantissa of 53 bits at
    most. *)
Lemma shr_fexp_m (m e : Z) (l : location) :
  0 <= m ->
  0 <= shr_m (fst (shr_fexp prec emax m e l)) < 2 ^ 53.
Proof.
  intros Hm. unfold shr_fexp, shr.
  pose proof (Zdigits2_upper m Hm) as Hu.
  pose proof (Zdigits2_nonneg m) as Hd.
  set (d := Zdigits2 m) in *.
  assert (Hrec : shr_m (shr_record_of_loc m l) = m)
    by (destruct l as [|[| |]]; reflexivity).
  destruct (fexp prec emax (d + e) - e) as [|n|n] eqn:Hn; simpl fst.
  - rewrite Hrec. split; [exact Hm|].
    unfold fexp, emin, prec, emax in Hn.
    assert (d <= 53) by lia.
    assert (2 ^ d <= 2 ^ 53) by (apply Z.pow_le_mono_r; lia). lia.
  - rewrite iter_shr_1_m by (rewrite Hrec; exact Hm). rewrite Hrec.
    assert (Hp : 0 < 2 ^ Zpos n) by (apply Z.pow_pos_nonneg; lia).
    split; [apply Z.div_pos; lia|].
    apply Z.div_lt_upper_bound; [exact Hp|].
    unfold fexp, emin, prec, emax in Hn.
    assert (d <= Zpos n + 53) by lia.
    assert (2 ^ d <= 2 ^ (Zpos n + 53)) by (apply Z.pow_le_mono_r; lia).
    rewrite Z.pow_add_r in * by lia. lia.
  - rewrite Hrec. split; [exact Hm|].
    unfold fexp, emin, prec, emax in Hn.
    assert (d <= 53) by lia.
    assert (2 ^ d <= 2 ^ 53) by (apply Z.pow_le_mono_r; lia). lia.
Qed.

Lemma round_nearest_even_nonneg (m : Z) (l : location) :
  0 <= m -> 0 <= round_nearest_even m l.
Proof.
  intros Hm. destruct l as [|[| |]]; simpl; try lia.
  destruct (Z.even m); lia.
Qed.

Lemma binary_round_aux_bounded (s : bool) (m e : Z) (l : location) :
  0 <= m -> mantissa_bounded (binary_round_aux prec emax s m e l).
Proof.
  intros Hm. unfold binary_round_aux.
  pose proof (shr_fexp_m m e l Hm) as H1.
  destruct (shr_fexp prec emax m e l) as [mrs' e']. simpl fst in H1.
  pose proof (shr_fexp_m (round_nearest_even (shr_m mrs') (loc_of_shr_record mrs'))
                e' loc_Exact
                (round_nearest_even_nonneg _ _ (proj1 H1))) as H2.
  destruct (shr_fexp prec emax _ e' loc_Exact) as [mrs'' e'']. simpl fst in H2.
  destruct (shr_m mrs'') as [|p|p]; try exact I.
  destruct (e'' <=? emax - prec); [apply H2 | exact I].
Qed.

Lemma mul_bounded (x y : number) : mantissa_bounded (mul x y).
Proof.
  destruct x as [sx|sx| |sx mx ex], y as [sy|sy| |sy my ey]; simpl; try exact I.
  apply binary_round_aux_bounded. lia.
Qed.

(** So has every Number. *)
Lemma valid_bounded (x : number) : valid x = true -> mantissa_bounded x.
Proof.
  destruct x as [s|s| |s m e]; try (intros _; exact I).
  unfold valid, valid_binary, bounded, canonical_mantissa, fexp, emin, prec, emax.
  intros H. apply andb_prop in H. destruct H as [H _]. apply Z.eqb_eq in H.
  pose proof (digits2_pos_upper m) as Hu.
  assert (Hd : Zpos (digits2_pos m) <= 53) by lia.
  assert (2 ^ Zpos (digits2_pos m) <= 2 ^ 53) by (apply Z.pow_le_mono_r; lia).
  simpl. lia.
Qed.

End Binary64.

(** Comparisons of fractions, as comparisons of integers. *)
Ltac unfold_Q :=
  unfold nearest_half_up, Qle, Qlt, Qminus, Qplus, Qopp, Qmult, Qabs, inject_Z;
  cbn [Qnum Qden].

Section Rounding.

Lemma round_half_up_spec (a b : Z) :
  0 < b ->
  (2 * round_half_up a b - 1) * b <= 2 * a < (2 * round_half_up a b + 1) * b.
Proof.
  intros Hb. unfold round_half_up.
  pose proof (Z.div_mod (2 * a + b) (2 * b) ltac:(lia)) as Hdm.
  pose proof (Z.mod_pos_bound (2 * a + b) (2 * b) ltac:(lia)) as Hr.
  nia.
Qed.

Lemma round_half_up_nearest (a b : Z) :
  0 < b -> nearest_half_up (a # Z.to_pos b) (round_half_up a b).
Proof.
  intros Hb. pose proof (round_half_up_spec a b Hb) as H.
  unfold_Q. rewrite Z2Pos.id by lia. nia.
Qed.

Lemma round_half_up_exact (n b : Z) :
  0 < b -> round_half_up (n * b) b = n.
Proof.
  intros Hb. unfold round_half_up.
  symmetry. apply (Z.div_unique_pos _ _ _ b); lia.
Qed.

Lemma denominator_pos (e : Z) : 0 < denominator e.
Proof. unfold denominator. apply Z.pow_pos_nonneg; lia. Qed.

Lemma numerator_pos (m : positive) (e : Z) : 0 < numerator m e.
Proof.
  unfold numerator.
  assert (0 < 2 ^ Z.max 0 e) by (apply Z.pow_pos_nonneg; lia). lia.
Qed.

(** [Math.round] of a finite Number is the integral Number closest to it,
    the larger one in a tie. *)
Lemma Math_round_nearest (x : number) (v : Q) :
  mantissa_bounded x -> value x = Some v ->
  exists n : Z,
    integer_value (Math_round x) = Some n /\ nearest_half_up v n.
Proof.
  intros Hm Hv. destruct x as [s|s| |s m e]; try discriminate.
  - injection Hv as <-. exists 0. split; [reflexivity|].
    unfold_Q. lia.
  - simpl in Hv. injection Hv as <-.
    pose proof (denominator_pos e) as Hb.
    pose proof (numerator_pos m e) as Ha.
    unfold Math_round.
    destruct (Z.eqb_spec (numerator m e mod denominator e) 0) as [Hint|Hfrac].
    + (* integral already *)
      exists (cond_Zopp s (numerator m e / denominator e)). split.
      * unfold integer_value. now rewrite Hint, Z.eqb_refl.
      * apply Z_div_exact_full_2 in Hint; [|lia].
        assert (Hn : cond_Zopp s (numerator m e)
                     = cond_Zopp s (numerator m e / denominator e) * denominator e).
        { destruct s; simpl; rewrite Hint at 1; ring. }
        rewrite Hn.
        rewrite <- (round_half_up_exact (cond_Zopp s (numerator m e / denominator e))
                      (denominator e) Hb) at 2.
        now apply round_half_up_nearest.
    + exists (round_half_up (cond_Zopp s (numerator m e)) (denominator e)).
      split; [|now apply round_half_up_nearest].
      destruct (Z.eqb_spec (round_half_up (cond_Zopp s (numerator m e))
                              (denominator e)) 0) as [->|Hnz]; [reflexivity|].
      apply of_Z_exact.
      (* a fraction has a negative exponent: its magnitude is below the
         mantissa *)
      simpl in Hm.
      pose proof (round_half_up_spec (cond_Zopp s (numerator m e))
                    (denominator e) Hb) as Hr.
      assert (He : e < 0).
      { destruct (Z.lt_ge_cases e 0) as [H|H]; [exact H|]. exfalso. apply Hfrac.
        unfold denominator. rewrite Z.max_l by lia. apply Z.mod_1_r. }
      assert (Hnum : numerator m e = Zpos m).
      { unfold numerator. rewrite Z.max_l by lia. lia. }
      assert (Hden : 2 <= denominator e).
      { unfold denominator. rewrite Z.max_r by lia.
        change 2 with (2 ^ 1) at 1. apply Z.pow_le_mono_r; lia. }
      rewrite Hnum in *.
      set (n := round_half_up _ _) in *. set (d := denominator e) in *.
      assert (Hle : Z.abs n <= Zpos m); [|lia].
      clearbody n d. clear - Hr Hden Ha.
      destruct s; unfold cond_Zopp in Hr.
      * assert (- Zpos m <= n <= 0); [|lia]. split.
        -- destruct (Z.le_gt_cases (- Zpos m) n) as [H|H]; [exact H|].
           assert ((2 * n + 1) * d <= (2 * n + 1) * 2)
             by (apply Z.mul_le_mono_nonpos_l; lia).
           lia.
        -- destruct (Z.le_gt_cases n 0) as [H|H]; [exact H|].
           assert (0 <= (2 * n - 1) * d) by (apply Z.mul_nonneg_nonneg; lia).
           lia.
      * assert (0 <= n <= Zpos m); [|lia]. split.
        -- destruct (Z.le_gt_cases 0 n) as [H|H]; [exact H|].
           assert ((2 * n + 1) * d <= 0)
             by (apply Z.mul_nonpos_nonneg; lia).
           lia.
        -- destruct (Z.le_gt_cases n (Zpos m)) as [H|H]; [exact H|].
           assert ((2 * n - 1) * 2 <= (2 * n - 1) * d)
             by (apply Z.mul_le_mono_nonneg_l; lia).
           lia.
Qed.

End Rounding.

(* ================================================================== *)
(** * The percentages                                                  *)
(* ================================================================== *)

Lemma nearest_half_up_above (v : Q) (n k : Z) :
  nearest_half_up v n -> (inject_Z k + (1 # 2) <= v)%Q -> k < n.
Proof.
  unfold_Q. intros [_ H] Hk. nia.
Qed.

Lemma nearest_half_up_below (v : Q) (n k : Z) :
  nearest_half_up v n -> (v < inject_Z k - (1 # 2))%Q -> n < k.
Proof.
  unfold_Q. intros [H _] Hk. nia.
Qed.

(** The percentage of [x] when [x * 100] is finite. *)
Lemma percent_of_product (x : number) (v : Q) :
  value (mul x (of_Z 100)) = Some v ->
  exists n : Z,
    integer_value (Math_round (mul x (of_Z 100))) = Some n
    /\ nearest_half_up v n
    /\ ((100 + (1 # 2) <= v)%Q -> 100 < n)
    /\ ((v < 0 - (1 # 2))%Q -> n < 0).
Proof.
  intros Hv.
  destruct (Math_round_nearest _ v (mul_bounded x (of_Z 100)) Hv)
    as (n & Hn & Hnear).
  exists n. repeat split; try assumption; try apply Hnear.
  - intros H. now apply (nearest_half_up_above v n 100).
  - intros H. now apply (nearest_half_up_below v n 0).
Qed.

(** C3.  With a result, [trustPercent] is [Math.round(m * 100)] and
    [confPercent] is [Math.round(c * 100)], each computed from its own
    value.  The rounding is to the closest integer, the larger one in a tie:
    0.5 gives 50, 0 gives 0 and 1 gives 100.  Nothing is clamped: a scaled
    value of 100.5 or more gives a percentage above 100 and one below -0.5 a
    negative percentage, as 1.5 gives 150 and -0.2 gives -20. *)
Theorem percent_rounds_half_up (this : AppComponent)
    (res : AnalyzeResponsePayload) :
  result this = Some res ->
  let m := Trust_m (Response_AggregatedTrust res) in
  let c := Trust_c (Response_AggregatedTrust res) in
  trustPercent this = Math_round (mul m (of_Z 100))
  /\ confPercent this = Math_round (mul c (of_Z 100))
  /\ (forall v : Q,
        value (mul m (of_Z 100)) = Some v ->
        exists n : Z,
          integer_value (trustPercent this) = Some n
          /\ nearest_half_up v n
          /\ ((100 + (1 # 2) <= v)%Q -> 100 < n)
          /\ ((v < 0 - (1 # 2))%Q -> n < 0))
  /\ (forall v : Q,
        value (mul c (of_Z 100)) = Some v ->
        exists n : Z,
          integer_value (confPercent this) = Some n
          /\ nearest_half_up v n
          /\ ((100 + (1 # 2) <= v)%Q -> 100 < n)
          /\ ((v < 0 - (1 # 2))%Q -> n < 0))
  /\ (m = of_decimal 5 1 -> trustPercent this = of_Z 50)
  /\ (m = of_Z 0 -> trustPercent this = of_Z 0)
  /\ (m = of_Z 1 -> trustPercent this = of_Z 100)
  /\ (m = of_decimal 15 1 -> trustPercent this = of_Z 150)
  /\ (m = of_decimal (-2) 1 -> trustPercent this = of_Z (-20))
  /\ (c = of_decimal 5 1 -> confPercent this = of_Z 50)
  /\ (c = of_Z 0 -> confPercent this = of_Z 0)
  /\ (c = of_Z 1 -> confPercent this = of_Z 100)
  /\ (c = of_decimal 15 1 -> confPercent this = of_Z 150)
  /\ (c = of_decimal (-2) 1 -> confPercent this = of_Z (-20)).
Proof.
  intros Hres m c. unfold trustPercent, confPercent. rewrite Hres.
  fold m c.
  split; [reflexivity|]. split; [reflexivity|].
  split; [intros v; apply percent_of_product|].
  split; [intros v; apply percent_of_product|].
  repeat split; intros ->; vm_compute; reflexivity.
Qed.

Lemma percent_rounds_half_up_witness :
  let res := sample_response (of_decimal 8 1) (of_decimal 6 1)
               (Some "2 sources, avg recency 3y") in
  let p := mul (Trust_m (Response_AggregatedTrust res)) (of_Z 100) in
  let v := (5629499534213120 # 70368744177664)%Q in
  result sample = Some res
  /\ value p = Some v
  /\ trustPercent sample = of_Z 80
  /\ confPercent sample = of_Z 60
  /\ exists n : Z,
       integer_value (trustPercent sample) = Some n
       /\ nearest_half_up v n
       /\ ((100 + (1 # 2) <= v)%Q -> 100 < n)
       /\ ((v < 0 - (1 # 2))%Q -> n < 0).
Proof.
  intros res p v.
  pose proof (percent_rounds_half_up sample res eq_refl) as H.
  assert (Hvalue : value p = Some v) by (vm_compute; reflexivity).
  split; [reflexivity|]. split; [exact Hvalue|].
  split; [rewrite (proj1 H); vm_compute; reflexivity|].
  split; [rewrite (proj1 (proj2 H)); vm_compute; reflexivity|].
  exact (proj1 (proj2 (proj2 H)) v Hvalue).
Defined.

(** A belief mass of 1.004 is out of range and its percentage is 100, which
    is in range: rounding brings it back, not clamping. *)
Lemma percent_slightly_above_counterexample :
  result slightly_above
  = Some (sample_response (of_decimal 1004 3) (of_Z 0) None)
  /\ ~ unit_range (of_decimal 1004 3)
  /\ integer_value (trustPercent slightly_above) = Some 100
  /\ 0 <= 100 <= 100.
Proof.
  split; [reflexivity|]. split; [|split; [vm_compute; reflexivity | lia]].
  intros (v & Hv & _ & Hle). vm_compute in Hv. injection Hv as <-.
  vm_compute in Hle. now apply Hle.
Qed.

(** C10.  Without a result, [trustPercent] and [confPercent] are both 0,
    the [(0, 0)] that the idle message of [trustHint] speaks of. *)
Theorem percent_without_result (this : AppComponent) :
  result this = None ->
  trustPercent this = of_Z 0
  /\ confPercent this = of_Z 0
  /\ integer_value (trustPercent this) = Some 0
  /\ integer_value (confPercent this) = Some 0
  /\ trustHint this
     = "No sources provided · T(m, c) defaults to (0, 0) = complete uncertainty."
  /\ includes (trustHint this) "defaults to (0, 0)" = true.
Proof.
  intros Hres. unfold trustPercent, confPercent, trustHint. rewrite Hres.
  repeat split.
Qed.

Lemma percent_without_result_witness :
  result initial = None
  /\ trustPercent initial = of_Z 0 /\ confPercent initial = of_Z 0.
Proof.
  pose proof (percent_without_result initial eq_refl) as H.
  split; [reflexivity|]. split.
  - exact (proj1 H).
  - exact (proj1 (proj2 H)).
Defined.

(* ================================================================== *)
(** * Strings                                                          *)
(* ================================================================== *)

Section Strings.

Lemma prefix_spec (p s : string) :
  String.prefix p s = true <-> exists rest, s = (p ++ rest)%string.
Proof.
  revert s. induction p as [|a p IH]; intros s; simpl.
  - split; [intros _; now exists s | now destruct s].
  - destruct s as [|b s].
    + split; [discriminate | intros (rest & H); discriminate].
    + simpl. destruct (ascii_dec a b) as [->|N].
      * rewrite IH. split; intros (rest & H); exists rest; congruence.
      * split; [discriminate | intros (rest & H); congruence].
Qed.

(** [includes] finds a substring wherever it is. *)
Lemma includes_spec (s search : string) :
  includes s search = true
  <-> exists before after, s = (before ++ search ++ after)%string.
Proof.
  induction s as [|a s IH]; cbn [includes].
  - rewrite orb_false_r, prefix_spec. split.
    + intros (rest & H). now exists "", rest.
    + intros ([|b before] & after & H); [now exists after | discriminate].
  - rewrite orb_true_iff, prefix_spec, IH. split.
    + intros [(rest & H) | (before & after & H)].
      * now exists "", rest.
      * exists (String a before), after. simpl. now rewrite H.
    + intros ([|b before] & after & H).
      * left. now exists after.
      * right. exists before, after. simpl in H. congruence.
Qed.

Lemma substring_all (s : string) : substring 0 (String.length s) s = s.
Proof. induction s as [|a s IH]; simpl; [|rewrite IH]; reflexivity. Qed.

Lemma substring_prefix (a b : string) :
  substring 0 (String.length a) (a ++ b) = a.
Proof.
  induction a as [|c a IH]; simpl; [|now rewrite IH].
  destruct b; reflexivity.
Qed.

Lemma substring_suffix (a b : string) :
  substring (String.length a) (String.length b) (a ++ b) = b.
Proof. induction a as [|c a IH]; simpl; [apply substring_all | exact IH]. Qed.

Lemma append_length (a b : string) :
  String.length (a ++ b) = (String.length a + String.length b)%nat.
Proof. induction a as [|c a IH]; simpl; [|rewrite IH]; reflexivity. Qed.

Lemma append_assoc (a b c : string) :
  ((a ++ b) ++ c = a ++ (b ++ c))%string.
Proof. induction a as [|x a IH]; simpl; [|rewrite IH]; reflexivity. Qed.

Lemma is_digit_digit (d : Z) :
  0 <= d < 10 -> all_digits (digit d) = true /\ String.length (digit d) = 1%nat.
Proof.
  intros H.
  assert (C : d = 0 \/ d = 1 \/ d = 2 \/ d = 3 \/ d = 4 \/ d = 5 \/ d = 6
              \/ d = 7 \/ d = 8 \/ d = 9) by lia.
  repeat destruct C as [-> | C]; try subst d; split; reflexivity.
Qed.

Lemma all_digits_append (a b : string) :
  all_digits (a ++ b) = all_digits a && all_digits b.
Proof.
  induction a as [|c a IH]; simpl; [reflexivity|].
  now rewrite IH, andb_assoc.
Qed.

(** *** The decimal numeral of a natural number *)

Lemma decimal_fuel_enough (f1 : nat) :
  forall (f2 : nat) (n : Z),
    0 <= n < 10 ^ Z.of_nat (S f1) -> n < 10 ^ Z.of_nat (S f2) ->
    decimal_fuel (S f1) n = decimal_fuel (S f2) n.
Proof.
  induction f1 as [|f1 IH]; intros f2 n H1 H2; simpl.
  - destruct (Z.ltb_spec n 10) as [_|H]; [reflexivity|].
    change (10 ^ Z.of_nat 1) with 10 in H1. lia.
  - destruct (Z.ltb_spec n 10) as [_|H]; [reflexivity|].
    destruct f2 as [|f2]; [change (10 ^ Z.of_nat 1) with 10 in H2; lia|].
    f_equal. change (decimal_fuel (S f1) (n / 10) = decimal_fuel (S f2) (n / 10)).
    rewrite Nat2Z.inj_succ, Z.pow_succ_r in H1, H2 by lia.
    apply IH;
      [split; [apply Z.div_pos; lia | apply Z.div_lt_upper_bound; lia]
      | apply Z.div_lt_upper_bound; lia].
Qed.

Lemma decimal_bound (n : Z) :
  0 <= n -> n < 10 ^ Z.of_nat (S (Z.to_nat (Z.log2 n))).
Proof.
  intros Hn. rewrite Nat2Z.inj_succ, Z2Nat.id by apply Z.log2_nonneg.
  destruct (Z.eq_dec n 0) as [->|Hnz]; [reflexivity|].
  apply Z.lt_le_trans with (2 ^ Z.succ (Z.log2 n)).
  - apply Z.log2_spec. lia.
  - apply Z.pow_le_mono_l. pose proof (Z.log2_nonneg n). lia.
Qed.

Lemma decimal_digit (n : Z) : 0 <= n < 10 -> decimal n = digit n.
Proof.
  intros H. unfold decimal. simpl.
  destruct (Z.ltb_spec n 10); [reflexivity | lia].
Qed.

Lemma decimal_step (n : Z) :
  10 <= n -> decimal n = (decimal (n / 10) ++ digit (n mod 10))%string.
Proof.
  intros H. unfold decimal at 1.
  pose proof (decimal_bound n ltac:(lia)) as Hb.
  simpl decimal_fuel. destruct (Z.ltb_spec n 10) as [H'|_]; [lia|].
  f_equal. unfold decimal.
  assert (Hq : 0 <= n / 10) by (apply Z.div_pos; lia).
  pose proof (decimal_bound (n / 10) Hq) as Hbq.
  destruct (Z.to_nat (Z.log2 n)) as [|f] eqn:Hf.
  - change (10 ^ Z.of_nat 1) with 10 in Hb. lia.
  - apply decimal_fuel_enough.
    + split; [exact Hq|]. apply Z.div_lt_upper_bound; [lia|].
      rewrite Nat2Z.inj_succ, Z.pow_succ_r in Hb by lia. exact Hb.
    + exact Hbq.
Qed.

Lemma decimal_digits (n : Z) :
  0 <= n ->
  all_digits (decimal n) = true /\ (1 <= String.length (decimal n))%nat.
Proof.
  assert (H : forall (k : nat) (n : Z),
             0 <= n -> (Z.to_nat n < k)%nat ->
             all_digits (decimal n) = true
             /\ (1 <= String.length (decimal n))%nat).
  { induction k as [|k IH]; intros m Hm Hk; [lia|].
    destruct (Z.lt_ge_cases m 10) as [Hs|Hl].
    - rewrite decimal_digit by lia.
      destruct (is_digit_digit m ltac:(lia)) as [-> ->]. split; [reflexivity | lia].
    - rewrite decimal_step by exact Hl.
      assert (Hq : 0 <= m / 10 < m).
      { split; [apply Z.div_pos; lia | apply Z.div_lt; lia]. }
      destruct (IH (m / 10) ltac:(lia) ltac:(lia)) as [Hd Hlen].
      pose proof (Z.mod_pos_bound m 10 ltac:(lia)) as Hr.
      destruct (is_digit_digit (m mod 10) Hr) as [Hd' Hlen'].
      rewrite all_digits_append, append_length, Hd, Hd', Hlen'.
      split; [reflexivity | lia]. }
  intros Hn. apply (H (S (Z.to_nat n))); [exact Hn | lia].
Qed.

(** The numeral of [n >= 100] ends with its tens and its units. *)
Lemma decimal_hundreds (n : Z) :
  100 <= n ->
  decimal n
  = (decimal (n / 100) ++ digit (n / 10 mod 10) ++ digit (n mod 10))%string.
Proof.
  intros H. rewrite (decimal_step n) by lia.
  assert (10 <= n / 10) by (apply Z.div_le_lower_bound; lia).
  rewrite (decimal_step (n / 10)) by assumption.
  rewrite Z.div_div by lia. now rewrite append_assoc.
Qed.

(** [toFixed]'s digits for two fraction digits: the hundreds of [n], the
    point, the tens and the units. *)
Lemma fixed_digits_two (n : Z) :
  0 <= n ->
  fixed_digits n 2
  = (decimal (n / 100) ++ "." ++ digit (n / 10 mod 10) ++ digit (n mod 10))%string.
Proof.
  intros Hn. unfold fixed_digits.
  replace (if n =? 0 then "0" else decimal n) with (decimal n)
    by (destruct (Z.eqb_spec n 0) as [->|]; reflexivity).
  destruct (Z.lt_ge_cases n 10) as [H1|H1];
    [|destruct (Z.lt_ge_cases n 100) as [H2|H2]].
  - rewrite (Z.div_small n 100), (Z.div_small n 10), (Z.mod_small n 10) by lia.
    rewrite (decimal_digit n) by lia. reflexivity.
  - rewrite (Z.div_small n 100) by lia.
    rewrite (decimal_step n) by lia.
    assert (Hq : 0 <= n / 10 < 10).
    { split; [apply Z.div_pos; lia | apply Z.div_lt_upper_bound; lia]. }
    rewrite (decimal_digit (n / 10)), (Z.mod_small (n / 10)) by lia.
    reflexivity.
  - rewrite (decimal_hundreds n H2).
    assert (Hq : 0 <= n / 100) by (apply Z.div_pos; lia).
    destruct (decimal_digits (n / 100) Hq) as [_ Hlen].
    set (a := decimal (n / 100)) in *.
    set (b := (digit (n / 10 mod 10) ++ digit (n mod 10))%string).
    assert (Hb : String.length b = 2%nat) by reflexivity.
    rewrite append_length, Hb.
    destruct (Nat.leb_spec (String.length a + 2) 2) as [H|_]; [lia|].
    rewrite append_length, Hb.
    replace (String.length a + 2 - 2)%nat with (String.length a) by lia.
    rewrite substring_prefix. rewrite <- Hb at 1. rewrite substring_suffix.
    reflexivity.
Qed.

End Strings.

(* ================================================================== *)
(** * The trust hint                                                   *)
(* ================================================================== *)

Section TrustHint.

Lemma round_half_up_nonneg (a b : Z) : 0 <= a -> 0 < b -> 0 <= round_half_up a b.
Proof. intros Ha Hb. unfold round_half_up. apply Z.div_pos; lia. Qed.

Lemma two_decimals_fixed (negative : bool) (n : Z) :
  0 <= n ->
  two_decimals ((if negative then "-" else "") ++ fixed_digits n 2)%string.
Proof.
  intros Hn. rewrite fixed_digits_two by exact Hn.
  assert (Hq : 0 <= n / 100) by (apply Z.div_pos; lia).
  destruct (decimal_digits (n / 100) Hq) as [Hd Hlen].
  pose proof (Z.mod_pos_bound n 10 ltac:(lia)) as H1.
  pose proof (Z.mod_pos_bound (n / 10) 10 ltac:(lia)) as H10.
  destruct (is_digit_digit _ H1) as [D1 _].
  destruct (is_digit_digit _ H10) as [D10 _].
  unfold digit in *. simpl in D1, D10. rewrite andb_true_r in D1, D10.
  apply (two_decimals_of negative (decimal (n / 100))); try assumption.
  intros E. rewrite E in Hlen. simpl in Hlen. lia.
Qed.

(** [toFixed(2)] of a finite Number below [10^21] in magnitude. *)
Lemma toFixed_two (x : number) (v : Q) :
  value x = Some v -> (Qabs v < inject_Z (10 ^ 21))%Q ->
  rounded_to_hundredths v (toFixed x 2) /\ two_decimals (toFixed x 2).
Proof.
  intros Hv Hsmall. destruct x as [s|s| |s m e]; try discriminate.
  - injection Hv as <-. split.
    + exists 0. split; [|reflexivity].
      unfold_Q. lia.
    + apply (two_decimals_of false "0" "0" "0"); (discriminate || reflexivity).
  - simpl in Hv. injection Hv as <-.
    pose proof (denominator_pos e) as Hb.
    pose proof (numerator_pos m e) as Ha.
    set (a := numerator m e) in *. set (b := denominator e) in *.
    assert (Hlt : a < 10 ^ 21 * b).
    { unfold Qlt, Qabs, inject_Z in Hsmall. simpl Qnum in Hsmall.
      simpl Qden in Hsmall. rewrite Z2Pos.id in Hsmall by exact Hb.
      change (Z.abs (cond_Zopp s a) * 1 < 10 ^ 21 * b) in Hsmall.
      destruct s; unfold cond_Zopp in Hsmall; lia. }
    assert (Hfix : toFixed (S754_finite s m e) 2
                   = ((if s then "-" else "")
                        ++ fixed_digits (round_half_up (a * 100) b) 2)%string).
    { unfold toFixed. fold a b.
      destruct (Z.leb_spec (10 ^ 21 * b) a) as [H|_]; [lia | reflexivity]. }
    assert (Hn : 0 <= round_half_up (a * 100) b)
      by (apply round_half_up_nonneg; lia).
    rewrite Hfix. split; [|now apply two_decimals_fixed].
    exists (round_half_up (a * 100) b). split.
    + pose proof (round_half_up_spec (a * 100) b Hb) as Hr.
      unfold_Q. rewrite !Pos.mul_1_l, !Z2Pos.id by exact Hb.
      replace (Z.abs (cond_Zopp s a)) with a
        by (destruct s; unfold cond_Zopp; lia).
      lia.
    + rewrite fixed_digits_two by exact Hn. simpl Qnum.
      replace (cond_Zopp s a <? 0) with s; [reflexivity|].
      destruct s; simpl; symmetry; [apply Z.ltb_lt | apply Z.ltb_ge]; lia.
Qed.

(** [x === 0] holds of the two zeros only. *)
Lemma strict_eq_zero (x : number) :
  strict_eq x (S754_zero false) = true <-> value x = Some 0%Q.
Proof.
  destruct x as [s|s| |s m e]; simpl.
  - split; reflexivity.
  - destruct s; split; discriminate.
  - split; discriminate.
  - pose proof (numerator_pos m e) as Ha.
    unfold strict_eq, SFeqb. simpl.
    split; [destruct s; discriminate|].
    intros H. injection H as H _. destruct s; simpl in H; lia.
Qed.

(** The condition of the second branch of [trustHint]. *)
Lemma no_sources_test (agg : Trust) :
  (strict_eq (Trust_m agg) (S754_zero false)
   && strict_eq (Trust_c agg) (S754_zero false)
   && includes (or_else (Trust_Details agg) "") "no sources")%bool = true
  <-> no_sources agg.
Proof.
  unfold no_sources.
  rewrite !andb_true_iff, !strict_eq_zero, includes_spec.
  assert (Hd : (exists before after : string,
                  or_else (Trust_Details agg) ""
                  = (before ++ "no sources" ++ after)%string)
               <-> (exists before after : string,
                      Trust_Details agg
                      = Some (before ++ "no sources" ++ after)%string)).
  { unfold or_else. destruct (Trust_Details agg) as [[|c d]|]; simpl.
    - split; intros ([|x before] & after & H); discriminate.
    - split; intros (before & after & H); exists before, after; congruence.
    - split; intros ([|x before] & after & H); discriminate. }
  rewrite Hd. tauto.
Qed.

End TrustHint.

(** C2.  [trustHint] has three branches.  Without a result it is the fixed
    message of the default [(0, 0)].  With a result whose aggregated trust
    is exactly [m = 0] and [c = 0] and whose details contain "no sources",
    it is another fixed message, of complete uncertainty.  With any other
    result it is the formatted text made of [m.toFixed(2)], [c.toFixed(2)]
    and the details (nothing for absent details); when [m] and [c] are
    finite and below [10^21] in magnitude, these two are [m] and [c] rounded
    to two decimal places, written with exactly two decimal places. *)
Theorem trustHint_branches (this : AppComponent) :
  (result this = None ->
     trustHint this
     = "No sources provided · T(m, c) defaults to (0, 0) = complete uncertainty.")
  /\ (forall res : AnalyzeResponsePayload,
        result this = Some res ->
        no_sources (Response_AggregatedTrust res) ->
        trustHint this
        = "No sources provided · T(m, c) = (0, 0) → complete uncertainty about evidence."
        /\ trustHint this
           <> "No sources provided · T(m, c) defaults to (0, 0) = complete uncertainty.")
  /\ (forall res : AnalyzeResponsePayload,
        result this = Some res ->
        ~ no_sources (Response_AggregatedTrust res) ->
        let agg := Response_AggregatedTrust res in
        trustHint this
        = formatted_hint (toFixed (Trust_m agg) 2) (toFixed (Trust_c agg) 2)
            (details_text agg))
  /\ (forall (res : AnalyzeResponsePayload) (vm vc : Q),
        result this = Some res ->
        ~ no_sources (Response_AggregatedTrust res) ->
        let agg := Response_AggregatedTrust res in
        value (Trust_m agg) = Some vm -> value (Trust_c agg) = Some vc ->
        (Qabs vm < inject_Z (10 ^ 21))%Q -> (Qabs vc < inject_Z (10 ^ 21))%Q ->
        exists sm sc : string,
          rounded_to_hundredths vm sm /\ rounded_to_hundredths vc sc
          /\ two_decimals sm /\ two_decimals sc
          /\ trustHint this = formatted_hint sm sc (details_text agg)).
Proof.
  assert (Hother : forall res : AnalyzeResponsePayload,
            result this = Some res ->
            ~ no_sources (Response_AggregatedTrust res) ->
            trustHint this
            = formatted_hint (toFixed (Trust_m (Response_AggregatedTrust res)) 2)
                (toFixed (Trust_c (Response_AggregatedTrust res)) 2)
                (details_text (Response_AggregatedTrust res))).
  { intros res Hres Hno. unfold trustHint. rewrite Hres.
    rewrite <- no_sources_test in Hno.
    apply not_true_is_false in Hno. rewrite Hno. reflexivity. }
  split; [|split; [|split]].
  - intros Hres. unfold trustHint. now rewrite Hres.
  - intros res Hres Hno. unfold trustHint. rewrite Hres.
    apply no_sources_test in Hno. rewrite Hno. split; [reflexivity | discriminate].
  - exact Hother.
  - intros res vm vc Hres Hno agg Hm Hc Hvm Hvc.
    destruct (toFixed_two _ _ Hm Hvm) as [Rm Dm].
    destruct (toFixed_two _ _ Hc Hvc) as [Rc Dc].
    exists (toFixed (Trust_m agg) 2), (toFixed (Trust_c agg) 2).
    repeat split; try assumption. now apply Hother.
Qed.

Lemma sample_not_no_sources :
  ~ no_sources
      (Response_AggregatedTrust
         (sample_response (of_decimal 8 1) (of_decimal 6 1)
            (Some "2 sources, avg recency 3y"))).
Proof. intros (H & _). vm_compute in H. discriminate. Qed.

Lemma trustHint_branches_witness :
  let res := sample_response (of_decimal 8 1) (of_decimal 6 1)
               (Some "2 sources, avg recency 3y") in
  let agg := Response_AggregatedTrust res in
  result sample = Some res
  /\ ~ no_sources agg
  /\ trustHint sample
     = "Aggregated trust T(m, c) = (0.80, 0.60) · 2 sources, avg recency 3y"
  /\ exists vm vc : Q,
       value (Trust_m agg) = Some vm /\ value (Trust_c agg) = Some vc
       /\ (Qabs vm < inject_Z (10 ^ 21))%Q /\ (Qabs vc < inject_Z (10 ^ 21))%Q
       /\ exists sm sc : string,
            rounded_to_hundredths vm sm /\ rounded_to_hundredths vc sc
            /\ two_decimals sm /\ two_decimals sc
            /\ trustHint sample = formatted_hint sm sc (details_text agg).
Proof.
  intros res agg.
  split; [reflexivity|]. split; [exact sample_not_no_sources|].
  split; [vm_compute; reflexivity|].
  exists (7205759403792794 # 9007199254740992)%Q.
  exists (5404319552844595 # 9007199254740992)%Q.
  split; [vm_compute; reflexivity|]. split; [vm_compute; reflexivity|].
  split; [vm_compute; reflexivity|]. split; [vm_compute; reflexivity|].
  apply (proj2 (proj2 (proj2 (trustHint_branches sample))) res _ _ eq_refl
           sample_not_no_sources).
  - vm_compute; reflexivity.
  - vm_compute; reflexivity.
  - vm_compute; reflexivity.
  - vm_compute; reflexivity.
Defined.

(** A belief mass of [10^21] is printed in exponential notation: the hint
    then embeds no numeral of two decimal places for it. *)
Lemma trustHint_huge_counterexample :
  let res := sample_response (of_Z (10 ^ 21)) (of_Z 0) None in
  let agg := Response_AggregatedTrust res in
  result huge = Some res
  /\ ~ no_sources agg
  /\ trustHint huge = "Aggregated trust T(m, c) = (1e+21, 0.00) · "
  /\ ~ hint_has_two_decimals huge agg.
Proof.
  intros res agg.
  assert (Hhint : trustHint huge = "Aggregated trust T(m, c) = (1e+21, 0.00) · ")
    by (vm_compute; reflexivity).
  split; [reflexivity|]. split; [|split; [exact Hhint|]].
  - intros (H & _). vm_compute in H. discriminate.
  - intros (sm & sc & Hsm & _ & Heq). rewrite Hhint in Heq.
    unfold formatted_hint in Heq. simpl in Heq.
    repeat (injection Heq as Heq).
    destruct Hsm as [negative int d1 d2 Hne Hint _ _].
    destruct negative; simpl in Heq; [discriminate|].
    destruct int as [|c1 int]; [now elim Hne|].
    simpl in Heq. injection Heq as <- Heq.
    destruct int as [|c2 int]; simpl in Heq; [discriminate|].
    injection Heq as <- _. simpl in Hint. discriminate.
Qed.

(* ================================================================== *)
(** * Looking nodes up                                                 *)
(* ================================================================== *)

Section Lookup.

Lemma covariate_nodes_from_ids (zs : list string) :
  forall i, map node_id (covariate_nodes_from i zs) = zs.
Proof. induction zs as [|z zs IH]; intros i; simpl; [|rewrite IH]; reflexivity. Qed.

Lemma dagNodes_ids (this : AppComponent) (tpl : CausalTemplate) :
  shows this tpl -> map node_id (dagNodes this) = node_names tpl.
Proof.
  intros Hs. rewrite (dagNodes_shows _ _ Hs). simpl.
  now rewrite covariate_nodes_from_ids.
Qed.

(** [find] by identifier: what is found has the identifier and is the first
    node that has it. *)
Lemma find_id_Some (nodes : list DagNode) (name : string) (n : DagNode) :
  find (fun n => String.eqb (node_id n) name) nodes = Some n ->
  node_id n = name /\ In n nodes.
Proof.
  intros H. apply find_some in H. destruct H as [Hin Heq].
  apply String.eqb_eq in Heq. now split.
Qed.

Lemma find_id_None (nodes : list DagNode) (name : string) :
  find (fun n => String.eqb (node_id n) name) nodes = None
  <-> ~ In name (map node_id nodes).
Proof.
  induction nodes as [|n nodes IH]; simpl.
  - tauto.
  - destruct (String.eqb_spec (node_id n) name) as [E|N].
    + split; [discriminate | intros H; elim H; now left].
    + rewrite IH. tauto.
Qed.

Lemma find_id_first (before after : list DagNode) (n : DagNode) (name : string) :
  node_id n = name -> ~ In name (map node_id before) ->
  find (fun n => String.eqb (node_id n) name) (before ++ n :: after) = Some n.
Proof.
  intros Hn. induction before as [|b before IH]; simpl; intros Hnot.
  - now rewrite Hn, String.eqb_refl.
  - destruct (String.eqb_spec (node_id b) name) as [E|N]; [tauto|].
    apply IH. tauto.
Qed.

Lemma covariate_nodes_from_split (zs : list string) :
  forall (i j : nat) (z : string),
    nth_error zs j = Some z ->
    covariate_nodes_from i zs
    = covariate_nodes_from i (firstn j zs)
        ++ covariate_node (i + j) z
        :: covariate_nodes_from (S (i + j)) (skipn (S j) zs).
Proof.
  induction zs as [|z0 zs IH]; intros i [|j] z H; simpl in *; try discriminate.
  - injection H as ->. now rewrite Nat.add_0_r.
  - rewrite (IH (S i) j z H). simpl.
    now replace (i + S j)%nat with (S (i + j)) by lia.
Qed.

Lemma NoDup_firstn_nth {A : Type} (l : list A) :
  forall (i : nat) (a : A),
    NoDup l -> nth_error l i = Some a -> ~ In a (firstn i l).
Proof.
  induction l as [|b l IH]; intros [|i] a Hnd H; simpl in *;
    try discriminate; [tauto|].
  apply NoDup_cons_iff in Hnd. destruct Hnd as [Hb Hnd].
  intros [E | Hin].
  - subst b. apply Hb. eapply nth_error_In; eauto.
  - now apply (IH i a Hnd H).
Qed.

End Lookup.

(** X1.  [getNodeFor] is an exact-match lookup among the nodes drawn: a
    node it returns has the name asked for and is one of [dagNodes]; it
    returns nothing exactly for a name that no node has, that is, for a
    template, a name that is neither the treatment, the outcome nor a
    covariate, and for every name when there is no template. *)
Theorem getNodeFor_exact (this : AppComponent) (name : string) :
  (forall n : DagNode,
     getNodeFor this name = Some n ->
     node_id n = name /\ In n (dagNodes this))
  /\ (getNodeFor this name = None
      <-> ~ In name (map node_id (dagNodes this)))
  /\ (forall tpl : CausalTemplate,
        shows this tpl ->
        (getNodeFor this name = None <-> ~ In name (node_names tpl)))
  /\ (template this = None -> getNodeFor this name = None).
Proof.
  unfold getNodeFor. repeat split.
  - now apply find_id_Some in H.
  - now apply find_id_Some in H.
  - apply find_id_None.
  - apply find_id_None.
  - rewrite find_id_None, (dagNodes_ids _ _ H). tauto.
  - rewrite find_id_None, (dagNodes_ids _ _ H). tauto.
  - intros H. now rewrite (dagNodes_no_template _ H).
Qed.

Lemma getNodeFor_exact_witness :
  shows sample sample_template
  /\ (getNodeFor sample "weather" = None
      <-> ~ In "weather" (node_names sample_template)).
Proof.
  split; [exact sample_shows|].
  exact (proj1 (proj2 (proj2 (getNodeFor_exact sample "weather")))
           sample_template sample_shows).
Defined.

(** X2.  With names that are all different, as a template is meant to have
    them, [getNodeFor] resolves the treatment to the X node, the outcome to
    the Y node and the covariate of index [i] to its own node.  Whatever the
    names, the treatment resolves to the X node: the first node with the
    name wins, so a later node of the same name is never returned. *)
Theorem getNodeFor_resolves (this : AppComponent) (tpl : CausalTemplate) :
  shows this tpl ->
  getNodeFor this (Template_X tpl) = Some (treatment_node tpl)
  /\ (NoDup (node_names tpl) ->
      getNodeFor this (Template_Y tpl) = Some (outcome_node tpl)
      /\ (forall (i : nat) (z : string),
            nth_error (covariates tpl) i = Some z ->
            getNodeFor this z = Some (covariate_node i z))).
Proof.
  intros Hs. unfold getNodeFor. rewrite (dagNodes_shows _ _ Hs). split.
  - simpl. now rewrite String.eqb_refl.
  - intros Hnd. unfold node_names in Hnd.
    apply NoDup_cons_iff in Hnd. destruct Hnd as [HX Hnd].
    apply NoDup_cons_iff in Hnd. destruct Hnd as [HY Hnd]. split.
    + apply (find_id_first [treatment_node tpl]); [reflexivity|].
      simpl. intros [E | []]. apply HX. left. now rewrite E.
    + intros i z Hz.
      rewrite (covariate_nodes_from_split _ 0 i z Hz).
      apply (find_id_first (treatment_node tpl :: outcome_node tpl :: _));
        [reflexivity|].
      assert (Hin : In z (covariates tpl)) by (eapply nth_error_In; eauto).
      simpl. rewrite covariate_nodes_from_ids.
      intros [E | [E | Hbefore]].
      * apply HX. right. now rewrite E.
      * apply HY. now rewrite E.
      * (* [z] would occur twice among the covariates *)
        now apply (NoDup_firstn_nth _ i z Hnd Hz).
Qed.

Lemma getNodeFor_resolves_witness :
  shows sample sample_template
  /\ NoDup (node_names sample_template)
  /\ getNodeFor sample "stress" = Some (covariate_node 1 "stress").
Proof.
  assert (Hnd : NoDup (node_names sample_template)).
  { unfold node_names. simpl.
    repeat (constructor; [simpl; intuition discriminate|]). constructor. }
  split; [exact sample_shows|]. split; [exact Hnd|].
  exact (proj2 (proj2 (getNodeFor_resolves sample sample_template sample_shows)
                  Hnd) 1%nat "stress" eq_refl).
Defined.

(** X3.  When every pair of [Edges] is made of names of the template, each
    edge that [dagEdges] returns resolves at both ends: [getNodeFor] finds a
    drawn node for its [from] and one for its [to], each with the name
    asked for.  An edge with an end that is no name of the template does not
    resolve at that end. *)
Theorem edges_resolve (this : AppComponent) (tpl : CausalTemplate) :
  shows this tpl ->
  (forall e : DagEdge,
     In e (dagEdges this) -> In (edge_pair e) (template_edges tpl))
  /\ (forall e : DagEdge,
        In e (dagEdges this) ->
        In (edge_from e) (node_names tpl) -> In (edge_to e) (node_names tpl) ->
        exists a b : DagNode,
          getNodeFor this (edge_from e) = Some a /\ node_id a = edge_from e
          /\ getNodeFor this (edge_to e) = Some b /\ node_id b = edge_to e
          /\ In a (dagNodes this) /\ In b (dagNodes this))
  /\ (forall e : DagEdge,
        In e (dagEdges this) ->
        ~ In (edge_from e) (node_names tpl) ->
        getNodeFor this (edge_from e) = None)
  /\ (forall e : DagEdge,
        In e (dagEdges this) ->
        ~ In (edge_to e) (node_names tpl) ->
        getNodeFor this (edge_to e) = None).
Proof.
  intros Hs.
  assert (Hfound : forall name : string,
            In name (node_names tpl) ->
            exists n, getNodeFor this name = Some n /\ node_id n = name
                      /\ In n (dagNodes this)).
  { intros name Hin. unfold getNodeFor.
    destruct (find _ (dagNodes this)) as [n|] eqn:Hf.
    - apply find_id_Some in Hf. exists n. tauto.
    - apply find_id_None in Hf. rewrite (dagNodes_ids _ _ Hs) in Hf. tauto. }
  assert (Hmissing : forall name : string,
            ~ In name (node_names tpl) -> getNodeFor this name = None).
  { intros name Hnot. unfold getNodeFor.
    apply find_id_None. now rewrite (dagNodes_ids _ _ Hs). }
  split; [|split; [|split]].
  - intros e He. destruct Hs as (res & Hres & Htpl).
    unfold dagEdges in He. rewrite Hres, Htpl in He. unfold template_edges.
    destruct (Template_Edges tpl) as [edges|]; [|contradiction].
    apply in_map_iff in He. destruct He as ([from to] & <- & Hin). exact Hin.
  - intros e _ Hfrom Hto.
    destruct (Hfound _ Hfrom) as (a & Ha & Ia & Na).
    destruct (Hfound _ Hto) as (b & Hb & Ib & Nb).
    exists a, b. tauto.
  - intros e _. apply Hmissing.
  - intros e _. apply Hmissing.
Qed.

Lemma edges_resolve_witness :
  shows sample sample_template
  /\ In {| edge_from := "age"; edge_to := "coffee" |} (dagEdges sample)
  /\ In "age" (node_names sample_template)
  /\ In "coffee" (node_names sample_template)
  /\ exists a b : DagNode,
       getNodeFor sample "age" = Some a /\ node_id a = "age"
       /\ getNodeFor sample "coffee" = Some b /\ node_id b = "coffee"
       /\ In a (dagNodes sample) /\ In b (dagNodes sample).
Proof.
  assert (He : In {| edge_from := "age"; edge_to := "coffee" |}
                 (dagEdges sample)) by (simpl; tauto).
  assert (Hf : In "age" (node_names sample_template)) by (simpl; tauto).
  assert (Ht : In "coffee" (node_names sample_template)) by (simpl; tauto).
  split; [exact sample_shows|]. split; [exact He|].
  split; [exact Hf|]. split; [exact Ht|].
  exact (proj1 (proj2 (edges_resolve sample sample_template sample_shows))
           _ He Hf Ht).
Defined.

(* ================================================================== *)
(** * The shape of the diagram                                         *)
(* ================================================================== *)

Section Shape.

Lemma covariate_nodes_from_index (zs : list string) :
  forall i n,
    In n (covariate_nodes_from i zs) ->
    exists j z,
      (i <= j < i + List.length zs)%nat /\ n = covariate_node j z.
Proof.
  induction zs as [|z0 zs IH]; intros i n; simpl; [tauto|].
  intros [<- | H].
  - exists i, z0. split; [lia | reflexivity].
  - destruct (IH _ _ H) as (j & z & Hj & ->).
    exists j, z. split; [lia | reflexivity].
Qed.

End Shape.

(** X4.  The extent of the diagram.  Every node is on one of the three rows
    [y = 30], [y = 90] and [y = 150], the middle one holding X and Y only,
    and at [x >= 80]; with [k] covariates no node is further right than
    [max 260 (80 + 80 * floor ((k - 1) / 2))].  Up to six covariates, no
    node is further right than the outcome ([x <= 260]); from the seventh
    on (index 6 and above) a covariate is drawn to the right of the
    outcome. *)
Theorem dagNodes_extent (this : AppComponent) (tpl : CausalTemplate) :
  shows this tpl ->
  let k := Z.of_nat (List.length (covariates tpl)) in
  (forall n : DagNode,
     In n (dagNodes this) ->
     80 <= node_x n <= Z.max 260 (80 + 80 * ((k - 1) / 2))
     /\ (node_y n = 30 \/ node_y n = 90 \/ node_y n = 150)
     /\ (node_y n = 90 <-> node_kind n <> KindZ))
  /\ (k <= 6 -> forall n : DagNode, In n (dagNodes this) -> node_x n <= 260)
  /\ (forall (i : nat) (z : string),
        nth_error (covariates tpl) i = Some z ->
        (260 < node_x (covariate_node i z) <-> (6 <= i)%nat)
        /\ In (covariate_node i z) (dagNodes this)).
Proof.
  intros Hs k. rewrite (dagNodes_shows _ _ Hs).
  assert (Hcov : forall n : DagNode,
            In n (covariate_nodes_from 0 (covariates tpl)) ->
            exists j : nat,
              Z.of_nat j < k
              /\ node_x n = 80 + 80 * (Z.of_nat j / 2)
              /\ (node_y n = 30 \/ node_y n = 150)
              /\ node_kind n = KindZ).
  { intros n Hn. apply covariate_nodes_from_index in Hn.
    destruct Hn as (j & z & Hj & ->). exists j.
    split; [subst k; lia|]. split; [|split; [|reflexivity]].
    - simpl. now rewrite Nat.div2_div, Nat2Z.inj_div.
    - simpl. destruct (Nat.even j); tauto. }
  split; [|split].
  - intros n [<- | [<- | Hn]];
      cbn [node_x node_y node_kind treatment_node outcome_node].
    + split; [lia|]. split; [tauto|]. split; [discriminate | reflexivity].
    + split; [lia|]. split; [tauto|]. split; [discriminate | reflexivity].
    + destruct (Hcov n Hn) as (j & Hj & -> & Hy & ->).
      assert (0 <= Z.of_nat j / 2 <= (k - 1) / 2).
      { split; [apply Z.div_pos; lia | apply Z.div_le_mono; lia]. }
      split; [lia|]. split; [tauto|].
      split; [intros E; destruct Hy as [Hy | Hy]; rewrite Hy in E; discriminate
             | intros N; now elim N].
  - intros Hk n [<- | [<- | Hn]];
      cbn [node_x treatment_node outcome_node]; try lia.
    destruct (Hcov n Hn) as (j & Hj & -> & _).
    assert (Z.of_nat j / 2 < 3) by (apply Z.div_lt_upper_bound; lia). lia.
  - intros i z Hz. split.
    + unfold covariate_node. cbn [node_x].
      rewrite Nat.div2_div, Nat2Z.inj_div. change (Z.of_nat 2) with 2. split.
      * intros H. destruct (Nat.lt_ge_cases i 6) as [Hlt|Hge]; [|exact Hge].
        assert (Z.of_nat i / 2 < 3) by (apply Z.div_lt_upper_bound; lia). lia.
      * intros H.
        assert (3 <= Z.of_nat i / 2) by (apply Z.div_le_lower_bound; lia). lia.
    + right; right. pose proof (covariate_nodes_from_nth _ 0 i z Hz) as Hn.
      simpl in Hn. eapply nth_error_In; eauto.
Qed.

Lemma dagNodes_extent_witness :
  shows sample sample_template
  /\ (forall n : DagNode, In n (dagNodes sample) -> node_x n <= 260).
Proof.
  split; [exact sample_shows|].
  apply (proj1 (proj2 (dagNodes_extent sample sample_template sample_shows))).
  simpl. lia.
Defined.

(* ================================================================== *)
(** * Shaping the request                                              *)
(* ================================================================== *)

Section Request.

Lemma set_statusText_form (text : string) (this : AppComponent) :
  same_form this (set_statusText text this).
Proof. unfold same_form. simpl. tauto. Qed.

Lemma same_form_refl (this : AppComponent) : same_form this this.
Proof. unfold same_form. tauto. Qed.

Lemma same_form_trans (a b c : AppComponent) :
  same_form a b -> same_form b c -> same_form a c.
Proof. unfold same_form. intuition congruence. Qed.

(** [runAnalysis] writes no field of the form. *)
Lemma runAnalysis_form (this : AppComponent) :
  same_form this (fst (runAnalysis this)).
Proof.
  unfold runAnalysis. destruct (falsy (trim (claim this)));
    unfold same_form; simpl; tauto.
Qed.

(** The request is made from the form alone. *)
Lemma runAnalysis_request_form (this that : AppComponent) :
  same_form this that -> snd (runAnalysis that) = snd (runAnalysis this).
Proof.
  unfold same_form. intros (_ & Hc & Hd & Ht & Hu & Hti & Hy & Hs).
  unfold runAnalysis. rewrite Hc, Hd, Ht, Hu, Hti, Hy, Hs.
  destruct (falsy (trim (claim this))); reflexivity.
Qed.

Lemma step_form (w : World) (ev : Event) :
  same_form (component w) (component (step w ev)).
Proof.
  destruct ev as [|res|err]; unfold step.
  - pose proof (runAnalysis_form (component w)) as H.
    destruct (runAnalysis (component w)) as [this request]. exact H.
  - unfold same_form. simpl. tauto.
  - unfold same_form. simpl. tauto.
Qed.

Lemma domain_payload (d : string) :
  (if String.eqb d "auto" then "auto" else d) = d.
Proof. destruct (String.eqb_spec d "auto") as [->|]; reflexivity. Qed.

End Request.

(** X5.  With a claim that is not empty once trimmed, [runAnalysis] hands
    exactly one request to the analysis service: its [TextClaim] is the
    trimmed claim, not empty, and its [Domain] is the domain of the form as
    it is (the test against "auto" changes nothing).  It raises the loading
    flag and sets the status text, and leaves the result on display, the
    backend status and the form as they were. *)
Theorem runAnalysis_sends (w : World) :
  trim (claim (component w)) <> "" ->
  let this := component w in
  let w' := step w Submit in
  exists payload : AnalyzeRequestPayload,
    requests w' = requests w ++ [payload]
    /\ Request_TextClaim payload = trim (claim this)
    /\ Request_TextClaim payload <> ""
    /\ Request_Domain payload = domain this
    /\ (List.length (Request_Sources payload) <= 1)%nat
    /\ loading (component w') = true
    /\ statusText (component w') = "Analyzing claim…"
    /\ result (component w') = result this
    /\ backendStatus (component w') = backendStatus this
    /\ same_form this (component w')
    /\ console w' = console w.
Proof.
  intros Hclaim this w'. subst w'. unfold step. fold this.
  unfold runAnalysis.
  destruct (falsy (trim (claim this))) eqn:Hf.
  - apply falsy_empty in Hf. now elim Hclaim.
  - eexists. cbn [requests component console].
    split; [reflexivity|]. cbn [Request_TextClaim Request_Domain Request_Sources].
    split; [reflexivity|]. split; [exact Hclaim|].
    split; [apply domain_payload|].
    split; [destruct (falsy (trim (sourceUrl this))); simpl; lia|].
    unfold same_form. simpl. tauto.
Qed.

Lemma runAnalysis_sends_witness :
  let w := {| component := set_result (result sample)
                             {| title := "CausalClaim Guard";
                                claim := "  Does coffee cause better sleep? ";
                                domain := "health";
                                sourceType := ""; sourceUrl := "";
                                sourceTitle := ""; sourceYear := None;
                                sampleSize := None; loading := false;
                                statusText := "Analysis complete.";
                                backendStatus := "connected";
                                result := None |};
              requests := []; console := [] |} in
  trim (claim (component w)) <> ""
  /\ exists payload : AnalyzeRequestPayload,
       requests (step w Submit) = [payload]
       /\ Request_TextClaim payload = "Does coffee cause better sleep?"
       /\ Request_Domain payload = "health".
Proof.
  intros w.
  assert (Hclaim : trim (claim (component w)) <> "")
    by (vm_compute; discriminate).
  split; [exact Hclaim|].
  destruct (runAnalysis_sends w Hclaim) as (payload & Hreq & Htext & _ & Hdom & _).
  exists payload. split; [exact Hreq|]. split.
  - rewrite Htext. vm_compute. reflexivity.
  - exact Hdom.
Defined.

(** X6.  The request carries at most one source, made from the source
    fields of the form: none when the URL is empty once trimmed; otherwise
    one whose [Url] is the trimmed URL, whose [PeerReviewed] is true exactly
    when the source type is "peer-reviewed", whose [Title] is the trimmed
    title and whose [Type] is the source type, each of the two null when
    empty, and whose [SampleSize] and [Year] are those of the form. *)
Theorem runAnalysis_sources (this that : AppComponent)
    (payload : AnalyzeRequestPayload) :
  runAnalysis this = (that, Some payload) ->
  (trim (sourceUrl this) = "" -> Request_Sources payload = [])
  /\ (trim (sourceUrl this) <> "" ->
      exists source : SourcePayload,
        Request_Sources payload = [source]
        /\ Source_Url source = Some (trim (sourceUrl this))
        /\ (Source_PeerReviewed source = Some true
            <-> sourceType this = "peer-reviewed")
        /\ (Source_PeerReviewed source = Some false
            <-> sourceType this <> "peer-reviewed")
        /\ (Source_Title source = None <-> trim (sourceTitle this) = "")
        /\ (forall t : string,
              Source_Title source = Some t -> t = trim (sourceTitle this))
        /\ (Source_Type source = None <-> sourceType this = "")
        /\ (forall t : string,
              Source_Type source = Some t -> t = sourceType this)
        /\ Source_SampleSize source = sampleSize this
        /\ Source_Year source = sourceYear this).
Proof.
  unfold runAnalysis. destruct (falsy (trim (claim this))); [discriminate|].
  intros H. injection H as _ <-. cbn [Request_Sources]. split.
  - intros ->. reflexivity.
  - intros Hurl. destruct (falsy (trim (sourceUrl this))) eqn:Hf.
    + apply falsy_empty in Hf. now elim Hurl.
    + eexists. split; [reflexivity|].
      cbn [Source_Url Source_PeerReviewed Source_Title Source_Type
           Source_SampleSize Source_Year].
      split; [reflexivity|].
      assert (Hnull : forall s : string,
                (or_null s = None <-> s = "")
                /\ (forall t, or_null s = Some t -> t = s)).
      { intros s. unfold or_null. destruct s as [|c s]; simpl.
        - split; [tauto | discriminate].
        - split; [split; discriminate | congruence]. }
      destruct (String.eqb_spec (sourceType this) "peer-reviewed") as [E|N].
      * repeat split; try apply Hnull; try tauto; try congruence;
          try discriminate.
      * repeat split; try apply Hnull; try tauto; try congruence;
          try discriminate.
Qed.

Lemma runAnalysis_sources_witness :
  let this := {| title := "CausalClaim Guard";
                 claim := "Does coffee cause better sleep?";
                 domain := "auto";
                 sourceType := "peer-reviewed";
                 sourceUrl := " https://example.org/study ";
                 sourceTitle := "  "; sourceYear := Some (of_Z 2019);
                 sampleSize := None; loading := false;
                 statusText := "Idle"; backendStatus := "connected";
                 result := None |} in
  exists (that : AppComponent) (payload : AnalyzeRequestPayload),
    runAnalysis this = (that, Some payload)
    /\ trim (sourceUrl this) <> ""
    /\ exists source : SourcePayload,
         Request_Sources payload = [source]
         /\ Source_Url source = Some "https://example.org/study"
         /\ Source_PeerReviewed source = Some true
         /\ Source_Title source = None.
Proof.
  intros this.
  destruct (runAnalysis this) as [that [payload|]] eqn:Hrun;
    [|vm_compute in Hrun; discriminate].
  assert (Hurl : trim (sourceUrl this) <> "") by (vm_compute; discriminate).
  exists that, payload. split; [reflexivity|]. split; [exact Hurl|].
  destruct (proj2 (runAnalysis_sources this that payload Hrun) Hurl)
    as (source & Hs & Hu & Hp & _ & Ht & _).
  exists source. split; [exact Hs|]. split.
  - rewrite Hu. vm_compute. reflexivity.
  - split; [now apply Hp | apply Ht; vm_compute; reflexivity].
Defined.

(* ================================================================== *)
(** * Runs of the component                                            *)
(* ================================================================== *)

Section Runs.

Lemma run_cons (w : World) (ev : Event) (events : list Event) :
  run w (ev :: events) = run (step w ev) events.
Proof. reflexivity. Qed.

Lemma run_app (w : World) (before after : list Event) :
  run w (before ++ after) = run (run w before) after.
Proof. unfold run. apply fold_left_app. Qed.

Lemma runAnalysis_result (this : AppComponent) :
  result (fst (runAnalysis this)) = result this
  /\ backendStatus (fst (runAnalysis this)) = backendStatus this.
Proof.
  unfold runAnalysis. destruct (falsy (trim (claim this))); split; reflexivity.
Qed.

Lemma step_Submit (w : World) :
  step w Submit
  = {| component := fst (runAnalysis (component w));
       requests := match snd (runAnalysis (component w)) with
                   | Some payload => requests w ++ [payload]
                   | None => requests w
                   end;
       console := console w |}.
Proof. unfold step. now destruct (runAnalysis (component w)). Qed.

Lemma step_result (w : World) (ev : Event) :
  result (component (step w ev))
  = match ev with
    | Succeeds res => Some res
    | _ => result (component w)
    end.
Proof.
  destruct ev as [|res|err]; [|reflexivity|reflexivity].
  rewrite step_Submit. apply runAnalysis_result.
Qed.

Lemma last_success_none (before : option AnalyzeResponsePayload)
    (events : list Event) :
  Forall no_success events -> last_success before events = before.
Proof.
  induction 1 as [|ev events Hev _ IH]; [reflexivity|].
  destruct ev; simpl in *; tauto.
Qed.

Lemma last_success_app (before : option AnalyzeResponsePayload)
    (events later : list Event) :
  last_success before (events ++ later)
  = last_success (last_success before events) later.
Proof.
  revert before. induction events as [|ev events IH]; intros before;
    [reflexivity|].
  destruct ev; simpl; apply IH.
Qed.

Lemma run_result (events : list Event) :
  forall w : World,
    result (component (run w events))
    = last_success (result (component w)) events.
Proof.
  induction events as [|ev events IH]; intros w; [reflexivity|].
  rewrite run_cons, IH, step_result. now destruct ev.
Qed.

Lemma run_form (events : list Event) :
  forall w : World, same_form (component w) (component (run w events)).
Proof.
  induction events as [|ev events IH]; intros w; [apply same_form_refl|].
  rewrite run_cons.
  exact (same_form_trans _ _ _ (step_form w ev) (IH (step w ev))).
Qed.

Lemma run_submits_backendStatus (events : list Event) :
  Forall is_submit events ->
  forall w : World,
    backendStatus (component (run w events)) = backendStatus (component w).
Proof.
  induction 1 as [|ev events Hev _ IH]; intros w; [reflexivity|].
  rewrite run_cons, IH, Hev, step_Submit. apply runAnalysis_result.
Qed.

Lemma step_Submit_loading (w : World) :
  trim (claim (component w)) <> "" ->
  loading (component (step w Submit)) = true
  /\ statusText (component (step w Submit)) = "Analyzing claim…".
Proof.
  intros Hclaim. rewrite step_Submit. unfold runAnalysis.
  destruct (falsy (trim (claim (component w)))) eqn:Hf.
  - apply falsy_empty in Hf. now elim Hclaim.
  - split; reflexivity.
Qed.

End Runs.

(** X7.  Along any sequence of submissions, successes and failures, the
    result on display is the response of the last success, whatever came
    before it: a later success replaces an earlier one entirely, and
    submissions and failures after it leave it alone.  As long as no
    request has succeeded, the result is the one the run started with. *)
Theorem last_success_is_displayed (w : World) (events : list Event) :
  (forall (before after : list Event) (res : AnalyzeResponsePayload),
     events = before ++ Succeeds res :: after ->
     Forall no_success after ->
     result (component (run w events)) = Some res)
  /\ (Forall no_success events ->
      result (component (run w events)) = result (component w)).
Proof.
  split.
  - intros before after res -> Hafter.
    rewrite run_result, last_success_app. simpl.
    now apply last_success_none.
  - intros Hnone. rewrite run_result. now apply last_success_none.
Qed.

Lemma last_success_is_displayed_witness :
  let w := {| component := sample; requests := []; console := [] |} in
  let res := sample_response (of_Z 0) (of_Z 0) (Some "no sources") in
  let events := [Submit; Succeeds (sample_response (of_Z 1) (of_Z 1) None);
                 Succeeds res; Fails "timeout"; Submit] in
  events = [Submit; Succeeds (sample_response (of_Z 1) (of_Z 1) None)]
             ++ Succeeds res :: [Fails "timeout"; Submit]
  /\ Forall no_success [Fails "timeout"; Submit]
  /\ result (component (run w events)) = Some res.
Proof.
  intros w res events.
  assert (Hafter : Forall no_success [Fails "timeout"; Submit])
    by (repeat constructor).
  split; [reflexivity|]. split; [exact Hafter|].
  exact (proj1 (last_success_is_displayed w events)
           [Submit; Succeeds (sample_response (of_Z 1) (of_Z 1) None)]
           [Fails "timeout"; Submit] res eq_refl Hafter).
Defined.

(** X8.  Every failure, and nothing else, writes to the console: after a
    run the console holds what it held before, then the errors of the
    failed requests in the order of the failures. *)
Theorem failures_are_logged (events : list Event) (w : World) :
  console (run w events) = console w ++ failures events.
Proof.
  revert w. induction events as [|ev events IH]; intros w.
  - simpl. now rewrite app_nil_r.
  - rewrite run_cons, IH. destruct ev as [|res|err].
    + rewrite step_Submit. reflexivity.
    + reflexivity.
    + simpl. now rewrite <- app_assoc.
Qed.

(** X9.  No event writes the form, and the request is made from the form
    alone, not from the loading flag, the status or the result.  So each
    submission of a run sends the same request again, also while an earlier
    one is unanswered: with a claim that is not empty once trimmed, the run
    hands one request per submission to the service, all equal; with an
    empty one it hands none. *)
Theorem every_submission_sends (events : list Event) (w : World) :
  same_form (component w) (component (run w events))
  /\ requests (run w events)
     = requests w
         ++ match snd (runAnalysis (component w)) with
            | Some payload => repeat payload (submissions events)
            | None => []
            end
  /\ (trim (claim (component w)) <> "" ->
      List.length (requests (run w events))
      = (List.length (requests w) + submissions events)%nat)
  /\ (trim (claim (component w)) = "" ->
      requests (run w events) = requests w).
Proof.
  assert (Hreq : forall (events : list Event) (w : World),
            requests (run w events)
            = requests w
                ++ match snd (runAnalysis (component w)) with
                   | Some payload => repeat payload (submissions events)
                   | None => []
                   end).
  { induction events0 as [|ev events0 IH]; intros w0.
    - simpl. destruct (snd (runAnalysis (component w0)));
        now rewrite app_nil_r.
    - rewrite run_cons, IH.
      rewrite (runAnalysis_request_form _ _ (step_form w0 ev)).
      destruct ev as [|res|err]; [|reflexivity|reflexivity].
      rewrite step_Submit. cbn [requests submissions].
      destruct (snd (runAnalysis (component w0))) as [payload|];
        [|reflexivity].
      now rewrite <- app_assoc. }
  split; [apply run_form|]. split; [apply Hreq|]. split.
  - intros Hclaim. rewrite Hreq. unfold runAnalysis.
    destruct (falsy (trim (claim (component w)))) eqn:Hf.
    + apply falsy_empty in Hf. now elim Hclaim.
    + cbn [snd]. now rewrite length_app, repeat_length.
  - intros Hclaim. rewrite Hreq. unfold runAnalysis. rewrite Hclaim.
    cbn [falsy snd]. now rewrite app_nil_r.
Qed.

Lemma every_submission_sends_witness :
  let w := {| component := set_result (result sample)
                             {| title := "CausalClaim Guard";
                                claim := "Does coffee cause better sleep?";
                                domain := "auto";
                                sourceType := ""; sourceUrl := "";
                                sourceTitle := ""; sourceYear := None;
                                sampleSize := None; loading := false;
                                statusText := "Idle";
                                backendStatus := "connected";
                                result := None |};
              requests := []; console := [] |} in
  trim (claim (component w)) <> ""
  /\ List.length (requests (run w [Submit; Submit; Fails "timeout"; Submit]))
     = 3%nat.
Proof.
  intros w.
  assert (Hclaim : trim (claim (component w)) <> "")
    by (vm_compute; discriminate).
  split; [exact Hclaim|].
  exact (proj1 (proj2 (proj2 (every_submission_sends
                                [Submit; Submit; Fails "timeout"; Submit] w)))
           Hclaim).
Defined.

(** X10.  The backend status and the loading flag follow the last events
    only.  After a run whose last response is a success the backend status
    is "connected", after one whose last response is a failure it is
    "error", whatever came before and however many submissions follow.
    Right after any response the loading flag is down, also when other
    requests of the run are still unanswered, and the status text is that
    of this response; a submission with a claim that is not empty raises
    the flag again. *)
Theorem last_response_decides (w : World) (before after : list Event) :
  Forall is_submit after ->
  (forall res : AnalyzeResponsePayload,
     backendStatus (component (run w (before ++ Succeeds res :: after)))
     = "connected")
  /\ (forall err : string,
        backendStatus (component (run w (before ++ Fails err :: after)))
        = "error")
  /\ (forall res : AnalyzeResponsePayload,
        loading (component (run w (before ++ [Succeeds res]))) = false
        /\ statusText (component (run w (before ++ [Succeeds res])))
           = "Analysis complete.")
  /\ (forall err : string,
        loading (component (run w (before ++ [Fails err]))) = false
        /\ statusText (component (run w (before ++ [Fails err])))
           = "Error during analysis. Check backend.")
  /\ (forall event : Event,
        after <> [] -> trim (claim (component w)) <> "" ->
        loading (component (run w (before ++ event :: after))) = true
        /\ statusText (component (run w (before ++ event :: after)))
           = "Analyzing claim…").
Proof.
  intros Hafter. split; [|split; [|split; [|split]]].
  - intros res. rewrite run_app, run_cons.
    now rewrite (run_submits_backendStatus _ Hafter).
  - intros err. rewrite run_app, run_cons.
    now rewrite (run_submits_backendStatus _ Hafter).
  - intros res. now rewrite run_app.
  - intros err. now rewrite run_app.
  - intros event Hne Hclaim.
    destruct (exists_last Hne) as (rest & last & ->).
    assert (Hlast : last = Submit).
    { rewrite Forall_forall in Hafter. apply Hafter.
      apply in_or_app. right. now left. }
    subst last.
    replace (before ++ event :: rest ++ [Submit])
      with ((before ++ event :: rest) ++ [Submit])
      by (now rewrite <- app_assoc).
    rewrite run_app. apply step_Submit_loading.
    destruct (run_form (before ++ event :: rest) w) as (_ & -> & _).
    exact Hclaim.
Qed.

Lemma last_response_decides_witness :
  let w := {| component := sample; requests := []; console := [] |} in
  Forall is_submit [Submit; Submit]
  /\ backendStatus
       (component (run w ([Submit; Succeeds (sample_response (of_Z 1) (of_Z 1) None)]
                           ++ Fails "timeout" :: [Submit; Submit])))
     = "error".
Proof.
  intros w.
  assert (H : Forall is_submit [Submit; Submit])
    by (repeat constructor).
  split; [exact H|].
  exact (proj1 (proj2 (last_response_decides w
                         [Submit; Succeeds (sample_response (of_Z 1) (of_Z 1) None)]
                         [Submit; Submit] H)) "timeout").
Defined.

(* ================================================================== *)
(** * Trimming                                                         *)
(* ================================================================== *)

Section Trimming.

Lemma strip_prefix_spec (p s r : string) :
  strip_prefix p s = Some r <-> s = (p ++ r)%string.
Proof.
  revert s. induction p as [|a p IH]; intros s; simpl.
  - split; congruence.
  - destruct s as [|b s]; [split; discriminate|].
    destruct (Ascii.eqb_spec a b) as [->|N].
    + rewrite IH. split; congruence.
    + split; [discriminate | congruence].
Qed.

Lemma strip_any_Some (ps : list string) (s r : string) :
  strip_any ps s = Some r -> exists p, In p ps /\ s = (p ++ r)%string.
Proof.
  induction ps as [|p ps IH]; simpl; [discriminate|].
  destruct (strip_prefix p s) as [r'|] eqn:Hp.
  - intros H. injection H as ->. apply strip_prefix_spec in Hp.
    exists p. tauto.
  - intros H. destruct (IH H) as (q & Hq & ->). exists q. tauto.
Qed.

Lemma strip_any_None (ps : list string) (s : string) :
  strip_any ps s = None
  <-> forall p r, In p ps -> s <> (p ++ r)%string.
Proof.
  induction ps as [|p ps IH]; simpl.
  - split; [intros _ p r [] | reflexivity].
  - destruct (strip_prefix p s) as [r'|] eqn:Hp.
    + apply strip_prefix_spec in Hp. split; [discriminate|].
      intros H. elim (H p r'); tauto.
    + rewrite IH. split.
      * intros H q r [<- | Hq]; [|now apply H].
        intros E. apply strip_prefix_spec in E. congruence.
      * intros H q r Hq. apply H. tauto.
Qed.

(** What [strip_all] leaves, after the prefixes it took. *)
Lemma strip_all_split (ps : list string) (fuel : nat) :
  forall s : string,
    exists taken : list string,
      Forall (fun p => In p ps) taken
      /\ s = (join taken ++ strip_all ps fuel s)%string.
Proof.
  induction fuel as [|fuel IH]; intros s; simpl.
  - exists []. split; [constructor | reflexivity].
  - destruct (strip_any ps s) as [rest|] eqn:Hs.
    + destruct (strip_any_Some _ _ _ Hs) as (p & Hp & ->).
      destruct (IH rest) as (taken & Htaken & Hrest).
      exists (p :: taken). split; [now constructor|].
      simpl. rewrite append_assoc. now rewrite <- Hrest.
    + exists []. split; [constructor | reflexivity].
Qed.

(** With fuel for every character, [strip_all] leaves nothing to strip. *)
Lemma strip_all_done (ps : list string) :
  ~ In EmptyString ps ->
  forall (fuel : nat) (s : string),
    (String.length s <= fuel)%nat ->
    strip_any ps (strip_all ps fuel s) = None.
Proof.
  intros Hne. induction fuel as [|fuel IH]; intros s Hlen; simpl.
  - destruct s; [|simpl in Hlen; lia].
    apply strip_any_None. intros [|a p] r Hp; [tauto | discriminate].
  - destruct (strip_any ps s) as [rest|] eqn:Hs; [|exact Hs].
    destruct (strip_any_Some _ _ _ Hs) as (p & Hp & ->).
    apply IH. rewrite append_length in Hlen.
    destruct p; [tauto | simpl in Hlen; lia].
Qed.

Lemma strip_all_fixed (ps : list string) (fuel : nat) (s : string) :
  strip_any ps s = None -> strip_all ps fuel s = s.
Proof. intros H. destruct fuel; simpl; [|rewrite H]; reflexivity. Qed.

Lemma append_empty_r (s : string) : (s ++ "")%string = s.
Proof. induction s as [|a s IH]; simpl; [|rewrite IH]; reflexivity. Qed.

Lemma reverse_append (a b : string) :
  reverse (a ++ b) = (reverse b ++ reverse a)%string.
Proof.
  induction a as [|c a IH]; simpl.
  - now rewrite append_empty_r.
  - now rewrite IH, append_assoc.
Qed.

Lemma reverse_involutive (s : string) : reverse (reverse s) = s.
Proof.
  induction s as [|a s IH]; simpl; [reflexivity|].
  now rewrite reverse_append, IH.
Qed.

Lemma reverse_length (s : string) : String.length (reverse s) = String.length s.
Proof.
  induction s as [|a s IH]; simpl; [reflexivity|].
  rewrite append_length, IH. simpl. lia.
Qed.

Lemma white_space_nonempty : ~ In EmptyString white_space.
Proof. simpl. intuition discriminate. Qed.

Lemma white_space_reversed_nonempty :
  ~ In EmptyString (map reverse white_space).
Proof. simpl. intuition discriminate. Qed.

(** What [trimStart] returns does not start with white space. *)
Lemma trimStart_done (s : string) :
  strip_any white_space (trimStart s) = None.
Proof. apply strip_all_done; [exact white_space_nonempty | lia]. Qed.

(** [trimEnd] returns a prefix of its argument that does not end with white
    space. *)
Lemma trimEnd_done (s : string) :
  strip_any (map reverse white_space) (reverse (trimEnd s)) = None
  /\ exists dropped : string, s = (trimEnd s ++ dropped)%string.
Proof.
  unfold trimEnd. rewrite reverse_involutive. split.
  - apply strip_all_done; [exact white_space_reversed_nonempty|].
    rewrite reverse_length. lia.
  - destruct (strip_all_split (map reverse white_space) (String.length s)
                (reverse s)) as (taken & _ & H).
    exists (reverse (join taken)).
    rewrite <- reverse_append, <- H. now rewrite reverse_involutive.
Qed.

(** What [trim] returns is trimmed. *)
Lemma trim_trimmed (s : string) : trimmed (trim s).
Proof.
  unfold trim. intros w rest Hw.
  destruct (trimEnd_done (trimStart s)) as (Hend & dropped & Hprefix).
  pose proof (trimStart_done s) as Hstart. split.
  - intros E. rewrite strip_any_None in Hstart.
    apply (Hstart w (rest ++ dropped)%string Hw).
    rewrite Hprefix at 1. rewrite E. apply append_assoc.
  - intros E. rewrite strip_any_None in Hend.
    apply (Hend (reverse w) (reverse rest)).
    + now apply in_map.
    + rewrite E. apply reverse_append.
Qed.

(** Trimming what is trimmed changes nothing. *)
Lemma trim_fixed (s : string) : trimmed s -> trim s = s.
Proof.
  intros H. unfold trim, trimStart, trimEnd.
  assert (Hstart : strip_any white_space s = None).
  { apply strip_any_None. intros p r Hp. now apply (H p r). }
  rewrite (strip_all_fixed _ _ _ Hstart).
  assert (Hend : strip_any (map reverse white_space) (reverse s) = None).
  { apply strip_any_None. intros p r Hp E.
    apply in_map_iff in Hp. destruct Hp as (w & <- & Hw).
    apply (proj2 (H w (reverse r) Hw)).
    rewrite <- (reverse_involutive s), E, reverse_append.
    now rewrite reverse_involutive. }
  rewrite (strip_all_fixed _ _ _ Hend). apply reverse_involutive.
Qed.

End Trimming.

Section Blank.

(** No white-space character starts with another one: the first that
    [strip_any] finds is the one in front. *)
Lemma strip_any_white (w rest : string) :
  white w -> strip_any white_space (w ++ rest) = Some rest.
Proof.
  unfold white. simpl. intros H.
  repeat (destruct H as [<- | H]; [reflexivity|]). contradiction.
Qed.

Lemma white_nonempty (w : string) : white w -> (1 <= String.length w)%nat.
Proof.
  unfold white. simpl. intros H.
  repeat (destruct H as [<- | H]; [simpl; lia|]). contradiction.
Qed.

Lemma strip_all_blank (ws : list string) :
  Forall white ws ->
  forall fuel : nat,
    (String.length (join ws) <= fuel)%nat ->
    strip_all white_space fuel (join ws) = "".
Proof.
  induction 1 as [|w ws Hw _ IH]; intros fuel Hlen.
  - destruct fuel; reflexivity.
  - simpl join in *. rewrite append_length in Hlen.
    pose proof (white_nonempty w Hw).
    destruct fuel as [|fuel]; [lia|].
    cbn [strip_all]. rewrite (strip_any_white w _ Hw). apply IH. lia.
Qed.

Lemma join_app (a b : list string) :
  join (a ++ b) = (join a ++ join b)%string.
Proof.
  induction a as [|x a IH]; simpl; [reflexivity|].
  now rewrite IH, append_assoc.
Qed.

Lemma reverse_join (parts : list string) :
  reverse (join parts) = join (map reverse (rev parts)).
Proof.
  induction parts as [|x parts IH]; simpl; [reflexivity|].
  rewrite reverse_append, IH, map_app, join_app. simpl.
  now rewrite append_empty_r.
Qed.

Lemma reverse_empty (s : string) : reverse s = "" -> s = "".
Proof.
  intros H. rewrite <- (reverse_involutive s), H. reflexivity.
Qed.

(** [trim] leaves nothing exactly of the blank strings. *)
Lemma trim_blank (s : string) : trim s = "" <-> blank s.
Proof.
  split.
  - unfold trim. intros H.
    destruct (strip_all_split white_space (String.length s) s)
      as (taken & Htaken & Hs).
    fold (trimStart s) in Hs.
    unfold trimEnd in H. apply reverse_empty in H.
    destruct (strip_all_split (map reverse white_space)
                (String.length (trimStart s)) (reverse (trimStart s)))
      as (taken' & Htaken' & Ht).
    rewrite H, append_empty_r in Ht.
    apply (f_equal reverse) in Ht.
    rewrite reverse_involutive, reverse_join in Ht.
    exists (taken ++ map reverse (rev taken')). split.
    + apply Forall_app. split; [exact Htaken|].
      apply Forall_forall. intros x Hx.
      apply in_map_iff in Hx. destruct Hx as (y & <- & Hy).
      apply in_rev in Hy. rewrite Forall_forall in Htaken'.
      apply Htaken' in Hy. apply in_map_iff in Hy.
      destruct Hy as (z & <- & Hz). now rewrite reverse_involutive.
    + now rewrite join_app, <- Ht.
  - intros (ws & Hws & ->). unfold trim, trimStart.
    now rewrite (strip_all_blank ws Hws _ (Nat.le_refl _)).
Qed.

End Blank.

(** X11.  [runAnalysis] rejects exactly the blank claims: a claim made of
    white-space characters only (spaces, tabs, line breaks, no-break spaces
    and the like, or nothing at all) sends no request and gets the message
    asking for a claim, and any other claim sends one request. *)
Theorem blank_claim_rejected (w : World) :
  (blank (claim (component w)) ->
     requests (step w Submit) = requests w
     /\ statusText (component (step w Submit))
        = "Please enter a claim before running analysis."
     /\ loading (component (step w Submit)) = loading (component w))
  /\ (~ blank (claim (component w)) ->
      exists payload : AnalyzeRequestPayload,
        requests (step w Submit) = requests w ++ [payload]
        /\ loading (component (step w Submit)) = true).
Proof.
  rewrite <- trim_blank. rewrite step_Submit. unfold runAnalysis. split.
  - intros ->. repeat split.
  - intros Hclaim. destruct (falsy (trim (claim (component w)))) eqn:Hf.
    + apply falsy_empty in Hf. now elim Hclaim.
    + eexists. split; reflexivity.
Qed.

Lemma blank_claim_rejected_witness :
  let w := {| component := set_result (result sample)
                             {| title := "CausalClaim Guard";
                                claim := String "009" (String "032" (String "010" ""));
                                domain := "auto";
                                sourceType := ""; sourceUrl := "";
                                sourceTitle := ""; sourceYear := None;
                                sampleSize := None; loading := false;
                                statusText := "Idle";
                                backendStatus := "connected";
                                result := None |};
              requests := []; console := [] |} in
  blank (claim (component w))
  /\ requests (step w Submit) = [].
Proof.
  intros w.
  assert (Hblank : blank (claim (component w))).
  { exists [String "009" ""; String "032" ""; String "010" ""].
    split; [|reflexivity].
    repeat constructor; unfold white; simpl; tauto. }
  split; [exact Hblank|].
  exact (proj1 (proj1 (blank_claim_rejected w) Hblank)).
Defined.

(** X12.  What the request carries is trimmed: its [TextClaim] neither
    starts nor ends with a white-space character and is not empty, so that
    trimming it again changes nothing; so are the [Url] of its source, and
    the [Title] of its source when it has one. *)
Theorem request_is_trimmed (this that : AppComponent)
    (payload : AnalyzeRequestPayload) :
  runAnalysis this = (that, Some payload) ->
  trimmed (Request_TextClaim payload)
  /\ Request_TextClaim payload <> ""
  /\ trim (Request_TextClaim payload) = Request_TextClaim payload
  /\ (forall source : SourcePayload,
        In source (Request_Sources payload) ->
        (exists url : string,
           Source_Url source = Some url /\ trimmed url /\ url <> "")
        /\ (forall t : string,
              Source_Title source = Some t -> trimmed t /\ t <> "")).
Proof.
  unfold runAnalysis.
  destruct (falsy (trim (claim this))) eqn:Hclaim; [discriminate|].
  intros H. injection H as _ <-.
  cbn [Request_TextClaim Request_Sources].
  assert (Hne : forall s : string, falsy s = false -> s <> "")
    by (intros s Hs ->; discriminate).
  split; [apply trim_trimmed|]. split; [now apply Hne|].
  split; [apply trim_fixed, trim_trimmed|].
  intros source Hin.
  destruct (falsy (trim (sourceUrl this))) eqn:Hurl; [contradiction|].
  destruct Hin as [<- | []]. cbn [Source_Url Source_Title]. split.
  - eexists. split; [reflexivity|]. split; [apply trim_trimmed | now apply Hne].
  - intros t. unfold or_null.
    destruct (falsy (trim (sourceTitle this))) eqn:Ht; [discriminate|].
    intros E. injection E as <-. split; [apply trim_trimmed | now apply Hne].
Qed.

Lemma request_is_trimmed_witness :
  let this := {| title := "CausalClaim Guard";
                 claim := "  Does coffee cause better sleep?  ";
                 domain := "auto";
                 sourceType := ""; sourceUrl := "";
                 sourceTitle := ""; sourceYear := None;
                 sampleSize := None; loading := false;
                 statusText := "Idle"; backendStatus := "connected";
                 result := None |} in
  exists (that : AppComponent) (payload : AnalyzeRequestPayload),
    runAnalysis this = (that, Some payload)
    /\ Request_TextClaim payload = "Does coffee cause better sleep?"
    /\ trim (Request_TextClaim payload) = Request_TextClaim payload.
Proof.
  intros this.
  destruct (runAnalysis this) as [that [payload|]] eqn:Hrun;
    [|vm_compute in Hrun; discriminate].
  exists that, payload. split; [reflexivity|]. split.
  - vm_compute in Hrun. injection Hrun as _ <-. reflexivity.
  - exact (proj1 (proj2 (proj2 (request_is_trimmed this that payload Hrun)))).
Defined.

(* ================================================================== *)
(** * Percentages of values in range                                   *)
(* ================================================================== *)

Section Range.

Lemma Zdigits2_lower (m : Z) : 0 < m -> 2 ^ Zdigits2 m <= 2 * m.
Proof.
  destruct m as [|p|p]; intros H; try lia. simpl. apply digits2_pos_lower.
Qed.

Lemma shr_record_of_loc_m (m : Z) (l : location) :
  shr_m (shr_record_of_loc m l) = m.
Proof. destruct l as [|[| |]]; reflexivity. Qed.

(** [shr_fexp] divides the mantissa by a power of two and raises the
    exponent by as much. *)
Lemma shr_fexp_spec (m e : Z) (l : location) :
  0 <= m ->
  snd (shr_fexp prec emax m e l) = e + dropped m e
  /\ shr_m (fst (shr_fexp prec emax m e l)) = m / 2 ^ dropped m e.
Proof.
  intros Hm. unfold shr_fexp, shr, dropped.
  destruct (fexp prec emax (Zdigits2 m + e) - e) as [|n|n]; simpl fst; simpl snd.
  - rewrite shr_record_of_loc_m, Z.max_l, Z.pow_0_r, Z.div_1_r by lia. lia.
  - rewrite iter_shr_1_m by (rewrite shr_record_of_loc_m; exact Hm).
    rewrite shr_record_of_loc_m, Z.max_r by lia. lia.
  - rewrite shr_record_of_loc_m, Z.max_l, Z.pow_0_r, Z.div_1_r by lia. lia.
Qed.

Lemma shr_1_exact (q : Z) (mrs : shr_record) :
  0 <= q -> exact_for (1 + q) mrs -> exact_for q (shr_1 mrs).
Proof.
  intros Hq H. destruct mrs as [m r s]. destruct H as (Hm & Hr & Hs & Hd).
  cbn [shr_m shr_r shr_s] in Hm, Hr, Hs, Hd. subst r s.
  rewrite Z.pow_add_r, Z.pow_1_r in Hd by lia.
  assert (Hp : 0 < 2 ^ q) by (apply Z.pow_pos_nonneg; lia).
  apply Z.mod_divide in Hd; [|lia]. destruct Hd as [c Hc].
  assert (Hhalf : m / 2 = c * 2 ^ q).
  { rewrite Hc. replace (c * (2 * 2 ^ q)) with (c * 2 ^ q * 2) by ring.
    apply Z.div_mul. lia. }
  assert (Hc0 : 0 <= c) by nia.
  pose proof (shr_1_m {| shr_m := m; shr_r := false; shr_s := false |} Hm)
    as Hshr.
  cbn [shr_m] in Hshr.
  assert (Heven : Z.even m = true).
  { apply Z.even_spec. exists (c * 2 ^ q). rewrite Hc. ring. }
  unfold exact_for. rewrite Hshr, Hhalf.
  split; [nia|].
  split; [|split; [|apply Z_mod_mult]].
  - clear - Heven Hm.
    destruct m as [|[p|p|]|p]; simpl in *; try reflexivity; try discriminate; lia.
  - clear. destruct m as [|[p|p|]|[p|p|]]; reflexivity.
Qed.

Lemma iter_shr_1_exact (p : positive) :
  forall (q : Z) (mrs : shr_record),
    0 <= q -> exact_for (Zpos p + q) mrs -> exact_for q (iter_pos shr_1 p mrs).
Proof.
  induction p as [p IH|p IH|]; intros q mrs Hq H; simpl iter_pos.
  - apply IH; [exact Hq|]. apply IH; [lia|]. apply shr_1_exact; [lia|].
    replace (1 + (Zpos p + (Zpos p + q))) with (Zpos p~1 + q) by lia. exact H.
  - apply IH; [exact Hq|]. apply IH; [lia|].
    replace (Zpos p + (Zpos p + q)) with (Zpos p~0 + q) by lia. exact H.
  - apply shr_1_exact; assumption.
Qed.

(** When the places dropped hold zeros, [shr_fexp] reports an exact
    result. *)
Lemma shr_fexp_exact (m e : Z) :
  0 <= m -> m mod 2 ^ dropped m e = 0 ->
  loc_of_shr_record (fst (shr_fexp prec emax m e loc_Exact)) = loc_Exact.
Proof.
  intros Hm. unfold shr_fexp, shr, dropped.
  destruct (fexp prec emax (Zdigits2 m + e) - e) as [|n|n]; simpl fst;
    try reflexivity.
  rewrite Z.max_r by lia. intros Hd.
  destruct (iter_shr_1_exact n 0 (shr_record_of_loc m loc_Exact))
    as (_ & Hr & Hs & _).
  - lia.
  - unfold exact_for. cbn [shr_record_of_loc shr_m shr_r shr_s].
    rewrite Z.add_0_r. tauto.
  - destruct (iter_pos shr_1 n _) as [m' r s]. simpl in *. now subst.
Qed.

Lemma round_nearest_even_le (m : Z) (l : location) :
  m <= round_nearest_even m l <= m + 1
  /\ (l = loc_Exact -> round_nearest_even m l = m).
Proof.
  destruct l as [|[| |]]; simpl; try (split; [lia | discriminate || tauto]).
  destruct (Z.even m); split; try lia; discriminate.
Qed.

Lemma fexp_binary64 (x : Z) : fexp prec emax x = Z.max (x - 53) (-1074).
Proof. reflexivity. Qed.

(** Rounding a product of at most 100 gives at most 100: 100 is a binary64
    number, and rounding to nearest does not step over one. *)
Lemma binary_round_aux_hundred (Pm Pe : Z) :
  0 < Pm -> Pe <= -46 -> Pm <= 100 * 2 ^ (- Pe) ->
  binary_round_aux prec emax false Pm Pe loc_Exact = S754_zero false
  \/ exists (m3 : positive) (e3 : Z),
       binary_round_aux prec emax false Pm Pe loc_Exact
       = S754_finite false m3 e3
       /\ e3 <= 0 /\ Zpos m3 <= 100 * 2 ^ (- e3).
Proof.
  intros HPm HPe Hle. unfold binary_round_aux.
  destruct (shr_fexp_spec Pm Pe loc_Exact ltac:(lia)) as [He1 Hm1].
  pose proof (shr_fexp_exact Pm Pe ltac:(lia)) as Hexact.
  pose proof (shr_fexp_m Pm Pe loc_Exact ltac:(lia)) as Hb1.
  destruct (shr_fexp prec emax Pm Pe loc_Exact) as [mrs1 e1].
  cbn [fst snd] in He1, Hm1, Hexact, Hb1.
  (* the first shift *)
  assert (Hn1 : 0 <= dropped Pm Pe) by (unfold dropped; lia).
  assert (Hd : Zdigits2 Pm + Pe <= 7).
  { pose proof (Zdigits2_lower Pm HPm) as Hlow.
    assert (H8 : 2 ^ Zdigits2 Pm < 2 ^ (8 - Pe)).
    { replace (8 - Pe) with (8 + - Pe) by lia.
      rewrite Z.pow_add_r by lia. change (2 ^ 8) with 256.
      assert (0 < 2 ^ (- Pe)) by (apply Z.pow_pos_nonneg; lia). lia. }
    apply Z.pow_lt_mono_r_iff in H8; lia. }
  assert (He1' : e1 <= -46).
  { rewrite He1. unfold dropped. rewrite fexp_binary64. lia. }
  set (K := 100 * 2 ^ (- e1)).
  assert (HK : 100 * 2 ^ (- Pe) = K * 2 ^ dropped Pm Pe).
  { unfold K. replace (- Pe) with (- e1 + dropped Pm Pe) by lia.
    rewrite Z.pow_add_r by lia. ring. }
  assert (Hp1 : 0 < 2 ^ dropped Pm Pe) by (apply Z.pow_pos_nonneg; lia).
  assert (Hm1K : shr_m mrs1 <= K).
  { rewrite Hm1. apply Z.div_le_upper_bound; [exact Hp1|]. lia. }
  destruct (round_nearest_even_le (shr_m mrs1) (loc_of_shr_record mrs1))
    as [Hrne Hrne_exact].
  set (m2 := round_nearest_even (shr_m mrs1) (loc_of_shr_record mrs1)) in *.
  assert (Hm2K : m2 <= K).
  { destruct (Z.lt_ge_cases (shr_m mrs1) K) as [Hlt|Hge]; [lia|].
    assert (HmK : shr_m mrs1 = K) by lia.
    assert (Hmul : Pm = K * 2 ^ dropped Pm Pe).
    { pose proof (Z.mul_div_le Pm (2 ^ dropped Pm Pe) Hp1) as Hdiv.
      rewrite <- Hm1, HmK in Hdiv. lia. }
    assert (Hmod : Pm mod 2 ^ dropped Pm Pe = 0)
      by (apply Z.mod_divide; [lia | exists K; exact Hmul]).
    rewrite (Hrne_exact (Hexact Hmod)). lia. }
  assert (Hm2 : 0 <= m2 <= 2 ^ 53) by lia.
  (* the second shift *)
  destruct (shr_fexp_spec m2 e1 loc_Exact ltac:(lia)) as [He2 Hm3].
  destruct (shr_fexp prec emax m2 e1 loc_Exact) as [mrs2 e2].
  cbn [fst snd] in He2, Hm3.
  assert (Hn2 : 0 <= dropped m2 e1) by (unfold dropped; lia).
  assert (Hd2 : Zdigits2 m2 <= 54).
  { destruct (Z.eq_dec m2 0) as [->|Hnz]; [simpl; lia|].
    pose proof (Zdigits2_lower m2 ltac:(lia)) as Hlow.
    assert (H55 : 2 ^ Zdigits2 m2 < 2 ^ 55).
    { change (2 ^ 55) with (4 * 2 ^ 53). lia. }
    apply Z.pow_lt_mono_r_iff in H55; lia. }
  assert (He2' : e2 <= 0).
  { rewrite He2. unfold dropped. rewrite fexp_binary64. lia. }
  assert (Hp2 : 0 < 2 ^ dropped m2 e1) by (apply Z.pow_pos_nonneg; lia).
  assert (Hm3' : 0 <= shr_m mrs2 <= 100 * 2 ^ (- e2)).
  { rewrite Hm3. split; [apply Z.div_pos; lia|].
    apply Z.div_le_upper_bound; [exact Hp2|].
    replace (2 ^ dropped m2 e1 * (100 * 2 ^ (- e2))) with K; [exact Hm2K|].
    unfold K. replace (- e1) with (dropped m2 e1 + - e2) by lia.
    rewrite Z.pow_add_r by lia. ring. }
  destruct (shr_m mrs2) as [|m3|m3]; [now left | | lia].
  right. exists m3, e2.
  replace (e2 <=? emax - prec) with true
    by (symmetry; apply Z.leb_le; unfold emax, prec; lia).
  repeat split; [exact He2' | apply Hm3'].
Qed.

(** A value in [[0, 1]] times 100 is a value in [[0, 100]]. *)
Lemma mul_hundred_in_range (x : number) (v : Q) :
  value x = Some v -> (0 <= v)%Q -> (v <= 1)%Q ->
  exists v' : Q,
    value (mul x (of_Z 100)) = Some v' /\ (0 <= v')%Q /\ (v' <= 100)%Q.
Proof.
  intros Hv H0 H1.
  replace (of_Z 100) with (S754_finite false 7036874417766400 (-46))
    by (vm_compute; reflexivity).
  destruct x as [s|s| |s m e]; try discriminate.
  - exists 0%Q. repeat split; unfold Qle; simpl; lia.
  - cbn [value] in Hv. injection Hv as <-.
    pose proof (numerator_pos m e) as Ha.
    pose proof (denominator_pos e) as Hb.
    unfold Qle in H0, H1. cbn [Qnum Qden] in H0, H1.
    rewrite Z2Pos.id in H1 by exact Hb.
    assert (Hs : s = false) by (destruct s; [unfold cond_Zopp in H0; lia | reflexivity]).
    subst s. unfold cond_Zopp in H1.
    assert (He : e <= 0).
    { destruct (Z.le_gt_cases e 0) as [H|H]; [exact H|]. exfalso.
      unfold numerator, denominator in H1.
      rewrite Z.max_r, Z.max_l, Z.pow_0_r in H1 by lia.
      assert (2 ^ 1 <= 2 ^ e) by (apply Z.pow_le_mono_r; lia).
      change (2 ^ 1) with 2 in *. nia. }
    unfold numerator, denominator in H1.
    rewrite Z.max_l, Z.max_r, Z.pow_0_r in H1 by lia.
    unfold mul, SFmul. cbn [xorb].
    destruct (binary_round_aux_hundred (Zpos (m * 7036874417766400)) (e + -46))
      as [-> | (m3 & e3 & -> & He3 & Hm3)].
    + lia.
    + lia.
    + rewrite Pos2Z.inj_mul. replace (- (e + -46)) with (- e + 46) by lia.
      rewrite Z.pow_add_r by lia. change (2 ^ 46) with 70368744177664.
      assert (0 < 2 ^ (- e)) by (apply Z.pow_pos_nonneg; lia). nia.
    + exists 0%Q. repeat split; unfold Qle; simpl; lia.
    + eexists. split; [reflexivity|].
      pose proof (denominator_pos e3) as Hb3.
      unfold Qle. cbn [Qnum Qden cond_Zopp]. rewrite Z2Pos.id by exact Hb3.
      unfold numerator, denominator.
      rewrite (Z.max_l 0 e3), (Z.max_r 0 (- e3)), Z.pow_0_r by lia.
      split; lia.
Qed.

End Range.

(** X13.  A belief mass and a confidence within [[0, 1]] give percentages
    within 0..100: each of [trustPercent] and [confPercent] is then an
    integer from 0 to 100, the multiplication by 100 and the rounding never
    taking a value in range out of range. *)
Theorem percent_in_range (this : AppComponent) (res : AnalyzeResponsePayload) :
  result this = Some res ->
  (unit_range (Trust_m (Response_AggregatedTrust res)) ->
     exists n : Z,
       integer_value (trustPercent this) = Some n /\ 0 <= n <= 100)
  /\ (unit_range (Trust_c (Response_AggregatedTrust res)) ->
      exists n : Z,
        integer_value (confPercent this) = Some n /\ 0 <= n <= 100).
Proof.
  intros Hres.
  assert (H : forall x : number,
            unit_range x ->
            exists n : Z,
              integer_value (Math_round (mul x (of_Z 100))) = Some n
              /\ 0 <= n <= 100).
  { intros x (v & Hv & H0 & H1).
    destruct (mul_hundred_in_range x v Hv H0 H1) as (v' & Hv' & H0' & H1').
    destruct (Math_round_nearest _ v' (mul_bounded x (of_Z 100)) Hv')
      as (n & Hn & Hnear).
    exists n. split; [exact Hn|]. split.
    - assert (-1 < n); [|lia].
      apply (nearest_half_up_above v' n (-1) Hnear).
      apply Qle_trans with 0%Q; [|exact H0']. unfold Qle. simpl. lia.
    - assert (n < 101); [|lia].
      apply (nearest_half_up_below v' n 101 Hnear).
      apply Qle_lt_trans with 100%Q; [exact H1'|]. unfold Qlt. simpl. lia. }
  unfold trustPercent, confPercent. rewrite Hres. split; apply H.
Qed.

Lemma percent_in_range_witness :
  let res := sample_response (of_decimal 8 1) (of_decimal 6 1)
               (Some "2 sources, avg recency 3y") in
  result sample = Some res
  /\ unit_range (Trust_m (Response_AggregatedTrust res))
  /\ exists n : Z,
       integer_value (trustPercent sample) = Some n /\ 0 <= n <= 100.
Proof.
  intros res.
  assert (Hunit : unit_range (Trust_m (Response_AggregatedTrust res))).
  { exists (7205759403792794 # 9007199254740992)%Q.
    split; [vm_compute; reflexivity|].
    split; unfold Qle; simpl; lia. }
  split; [reflexivity|]. split; [exact Hunit|].
  exact (proj1 (percent_in_range sample res eq_refl) Hunit).
Defined.

(** X14.  When the hint is the one of complete uncertainty (a trust of
    exactly [(0, 0)] whose details contain "no sources"), both percentages
    are 0: the bars agree with the message. *)
Theorem no_sources_percent_zero (this : AppComponent)
    (res : AnalyzeResponsePayload) :
  result this = Some res ->
  no_sources (Response_AggregatedTrust res) ->
  trustHint this
  = "No sources provided · T(m, c) = (0, 0) → complete uncertainty about evidence."
  /\ integer_value (trustPercent this) = Some 0
  /\ integer_value (confPercent this) = Some 0.
Proof.
  intros Hres Hno.
  assert (Hzero : forall x : number,
            value x = Some 0%Q ->
            integer_value (Math_round (mul x (of_Z 100))) = Some 0).
  { intros x Hx. destruct x as [s|s| |s m e]; try discriminate.
    - destruct s; vm_compute; reflexivity.
    - exfalso. cbn [value] in Hx. injection Hx as Hx _.
      pose proof (numerator_pos m e). destruct s; unfold cond_Zopp in Hx; lia. }
  split.
  - unfold trustHint. rewrite Hres.
    apply no_sources_test in Hno. now rewrite Hno.
  - destruct Hno as (Hm & Hc & _).
    unfold trustPercent, confPercent. rewrite Hres.
    split; now apply Hzero.
Qed.

Lemma no_sources_percent_zero_witness :
  let res := sample_response (of_Z 0) (of_Z 0)
               (Some "no sources were given") in
  result (showing (of_Z 0) (of_Z 0) (Some "no sources were given")) = Some res
  /\ no_sources (Response_AggregatedTrust res)
  /\ integer_value
       (trustPercent (showing (of_Z 0) (of_Z 0) (Some "no sources were given")))
     = Some 0.
Proof.
  intros res.
  assert (Hno : no_sources (Response_AggregatedTrust res)).
  { split; [reflexivity|]. split; [reflexivity|].
    exists "", " were given". reflexivity. }
  split; [reflexivity|]. split; [exact Hno|].
  exact (proj1 (proj2 (no_sources_percent_zero
                         (showing (of_Z 0) (of_Z 0) (Some "no sources were given"))
                         res eq_refl Hno))).
Defined.

(** X15.  For a belief mass and a confidence within [[0, 1]] (outside the
    case of no sources), the hint embeds two numerals from 0.00 to 1.00,
    each of four characters: the hundredths closest to the value, halves
    up, written as one digit, the point and two digits, with no sign. *)
Theorem trustHint_in_range (this : AppComponent) (res : AnalyzeResponsePayload)
    (vm vc : Q) :
  result this = Some res ->
  ~ no_sources (Response_AggregatedTrust res) ->
  let agg := Response_AggregatedTrust res in
  value (Trust_m agg) = Some vm -> (0 <= vm)%Q -> (vm <= 1)%Q ->
  value (Trust_c agg) = Some vc -> (0 <= vc)%Q -> (vc <= 1)%Q ->
  exists nm nc : Z,
    0 <= nm <= 100 /\ 0 <= nc <= 100
    /\ nearest_half_up (inject_Z 100 * vm) nm
    /\ nearest_half_up (inject_Z 100 * vc) nc
    /\ trustHint this
       = formatted_hint (hundredths_numeral nm) (hundredths_numeral nc)
           (details_text agg)
    /\ String.length (hundredths_numeral nm) = 4%nat
    /\ String.length (hundredths_numeral nc) = 4%nat.
Proof.
  intros Hres Hno agg Hm Hm0 Hm1 Hc Hc0 Hc1.
  assert (H : forall (x : number) (v : Q),
            value x = Some v -> (0 <= v)%Q -> (v <= 1)%Q ->
            exists n : Z,
              0 <= n <= 100
              /\ nearest_half_up (inject_Z 100 * v) n
              /\ toFixed x 2 = hundredths_numeral n
              /\ String.length (hundredths_numeral n) = 4%nat).
  { intros x [p q] Hx H0 H1.
    unfold Qle in H0, H1. cbn [Qnum Qden] in H0, H1.
    assert (Hsmall : (Qabs (p # q) < inject_Z (10 ^ 21))%Q).
    { unfold Qlt, Qabs, inject_Z. cbn [Qnum Qden].
      change (10 ^ 21) with 1000000000000000000000. lia. }
    destruct (toFixed_two x (p # q) Hx Hsmall) as [(n & Hnear & Hs) _].
    assert (Hnear' : nearest_half_up (inject_Z 100 * (p # q)) n).
    { revert Hnear. unfold_Q. rewrite (Z.abs_eq p) by lia. tauto. }
    assert (Hn : 0 <= n <= 100).
    { revert Hnear'. unfold_Q. rewrite !Pos.mul_1_l. nia. }
    exists n. split; [exact Hn|]. split; [exact Hnear'|].
    assert (Hq : 0 <= n / 100 < 10).
    { split; [apply Z.div_pos; lia | apply Z.div_lt_upper_bound; lia]. }
    split.
    - rewrite Hs. cbn [Qnum].
      replace (p <? 0) with false by (symmetry; apply Z.ltb_ge; lia).
      unfold hundredths_numeral. now rewrite (decimal_digit _ Hq).
    - reflexivity. }
  destruct (H _ vm Hm Hm0 Hm1) as (nm & Hnm & Nm & Sm & Lm).
  destruct (H _ vc Hc Hc0 Hc1) as (nc & Hnc & Nc & Sc & Lc).
  exists nm, nc.
  split; [exact Hnm|]. split; [exact Hnc|].
  split; [exact Nm|]. split; [exact Nc|]. split; [|split; assumption].
  unfold trustHint. rewrite Hres. fold agg.
  rewrite <- no_sources_test in Hno. apply not_true_is_false in Hno.
  fold agg in Hno. rewrite Hno, Sm, Sc. reflexivity.
Qed.

Lemma trustHint_in_range_witness :
  let res := sample_response (of_decimal 8 1) (of_decimal 6 1)
               (Some "2 sources, avg recency 3y") in
  let agg := Response_AggregatedTrust res in
  let vm := (7205759403792794 # 9007199254740992)%Q in
  let vc := (5404319552844595 # 9007199254740992)%Q in
  result sample = Some res
  /\ ~ no_sources agg
  /\ value (Trust_m agg) = Some vm /\ (0 <= vm)%Q /\ (vm <= 1)%Q
  /\ value (Trust_c agg) = Some vc /\ (0 <= vc)%Q /\ (vc <= 1)%Q
  /\ exists nm nc : Z,
       0 <= nm <= 100 /\ 0 <= nc <= 100
       /\ trustHint sample
          = formatted_hint (hundredths_numeral nm) (hundredths_numeral nc)
              (details_text agg).
Proof.
  intros res agg vm vc.
  assert (Hm : value (Trust_m agg) = Some vm) by (vm_compute; reflexivity).
  assert (Hc : value (Trust_c agg) = Some vc) by (vm_compute; reflexivity).
  assert (Hm0 : (0 <= vm)%Q) by (unfold Qle; simpl; lia).
  assert (Hm1 : (vm <= 1)%Q) by (unfold Qle; simpl; lia).
  assert (Hc0 : (0 <= vc)%Q) by (unfold Qle; simpl; lia).
  assert (Hc1 : (vc <= 1)%Q) by (unfold Qle; simpl; lia).
  split; [reflexivity|]. split; [exact sample_not_no_sources|].
  split; [exact Hm|]. split; [exact Hm0|]. split; [exact Hm1|].
  split; [exact Hc|]. split; [exact Hc0|]. split; [exact Hc1|].
  destruct (trustHint_in_range sample res vm vc eq_refl sample_not_no_sources
              Hm Hm0 Hm1 Hc Hc0 Hc1)
    as (nm & nc & Hnm & Hnc & _ & _ & Hhint & _).
  exists nm, nc. split; [exact Hnm|]. split; [exact Hnc|]. exact Hhint.
Defined.

(* ================================================================== *)
(** * Partial responses and the status                                 *)
(* ================================================================== *)




